(** * Patient record service: validation and record logic

    A shallow embedding of [health_db_for_giu.py] and [patient_class.py]:
    the request validators, the [Patient] class and the helper functions
    behind the three routes, followed by the properties proved of them. *)

From Stdlib Require Import ZArith String Ascii List Lia.
From Stdlib Require Import Floats.SpecFloat.
From stdpp Require Import base decidable option list strings pretty gmap.

Set Warnings "-register-all".

Open Scope Z_scope.
Open Scope string_scope.

(** ** Python values and outcomes *)

(** The built-in exceptions the embedded code can raise. *)
Inductive exn : Set :=
  | TypeError
  | ValueError
  | KeyError
  | AttributeError.

Global Instance exn_eq_dec : EqDecision exn.
Proof. solve_decision. Defined.

(** A Python evaluation either returns a value or raises. *)
Inductive result (A : Type) : Type :=
  | Ret (a : A)
  | Raise (e : exn).
Arguments Ret {A} a.
Arguments Raise {A} e.

(** A value decoded from a JSON request body by [request.get_json()]. *)
Inductive json : Type :=
  | JNull
  | JBool (b : bool)
  | JInt (z : Z)
  | JFloat (f : spec_float)
  | JStr (s : string)
  | JList (l : list json)
  | JDict (d : gmap string json).

(** The classes that [type(v)] can yield for such a value, and any other
    class a caller may list as an expected type (by qualified name). *)
Inductive pytype : Set :=
  | NoneType
  | Tbool
  | Tint
  | Tfloat
  | Tstr
  | Tlist
  | Tdict
  | Tclass (qualname : string).

Global Instance pytype_eq_dec : EqDecision pytype.
Proof. solve_decision. Defined.

(** [type(v)]: the exact class of a value; [bool] is not [int] here. *)
Definition type_of (v : json) : pytype :=
  match v with
  | JNull => NoneType
  | JBool _ => Tbool
  | JInt _ => Tint
  | JFloat _ => Tfloat
  | JStr _ => Tstr
  | JList _ => Tlist
  | JDict _ => Tdict
  end.

Definition pytype_name (t : pytype) : string :=
  match t with
  | NoneType => "NoneType"
  | Tbool => "bool"
  | Tint => "int"
  | Tfloat => "float"
  | Tstr => "str"
  | Tlist => "list"
  | Tdict => "dict"
  | Tclass q => q
  end.

(** ["{}".format(t)] for a class [t]. *)
Definition format_type (t : pytype) : string :=
  "<class '" +:+ pytype_name t +:+ "'>".

(** The validators return [True] or an error message. *)
Inductive check : Set :=
  | CheckTrue
  | CheckMsg (msg : string).

(** ** Request validation ([health_db_for_giu.py]) *)

Module Validator.

(** ["Key {} is not found in input.".format(ex_key)] *)
Definition key_not_found (ex_key : string) : string :=
  "Key " +:+ ex_key +:+ " is not found in input.".

(** ["The value for key {}".format(ex_key)
     + " is not the expected type of {}.".format(ex_type)] *)
Definition not_expected_type (ex_key : string) (ex_type : pytype) : string :=
  ("The value for key " +:+ ex_key) +:+
  (" is not the expected type of " +:+ format_type ex_type +:+ ".").

(** The loop of [validate_post_input] over the zipped pairs. *)
Fixpoint validate_post_input_loop (in_data : gmap string json)
    (pairs : list (string * pytype)) : check :=
  match pairs with
  | [] => CheckTrue
  | (ex_key, ex_type) :: rest =>
      match in_data !! ex_key with
      | None => CheckMsg (key_not_found ex_key)
      | Some v =>
          if decide (type_of v = ex_type)
          then validate_post_input_loop in_data rest
          else CheckMsg (not_expected_type ex_key ex_type)
      end
  end.

(** [validate_post_input(in_data, expected_keys, expected_types)] *)
Definition validate_post_input (in_data : gmap string json)
    (expected_keys : list string) (expected_types : list pytype) : check :=
  validate_post_input_loop in_data (zip expected_keys expected_types).

Definition valid_blood_types : list string :=
  ["A+"; "A-"; "B+"; "B-"; "AB+"; "AB-"; "O+"; "O-"].

(** [validate_blood_type(blood_type)] on a [str]. *)
Definition validate_blood_type (blood_type : string) : check :=
  if decide (blood_type ∈ valid_blood_types)
  then CheckTrue
  else CheckMsg ("Given blood type of " +:+ blood_type +:+ " is not valid.").

End Validator.

(** ** The [Patient] class ([patient_class.py]) *)

(** A patient as the routes store it: names are [str], [mrn] and [age] are
    [int], and [tests] is a list of [(test_name, test_value)] tuples. *)
Record Patient : Type := mkPatient {
  first_name : string;
  last_name : string;
  mrn : Z;
  age : Z;
  tests : list (string * Z)
}.

(** The parameters of [Patient.__init__] after [self]. *)
Definition Patient_init_params : list string :=
  ["first_name"; "last_name"; "mrn"; "age"; "tests"].

(** The body of [Patient.__init__]. An omitted [age] takes the default 0;
    [tests] is [None] when omitted or passed as [None], and the instance
    then gets a fresh empty list. *)
Definition Patient_init (first_name last_name : string) (mrn : Z)
    (age : option Z) (tests : option (list (string * Z))) : Patient :=
  {| first_name := first_name;
     last_name := last_name;
     mrn := mrn;
     age := default 0 age;
     tests := match tests with
              | None => []
              | Some tests => tests
              end |}.

(** Python binds the keyword arguments of a call to the parameters of the
    callee by name; a keyword that names no parameter raises [TypeError]
    before the body runs. *)
Definition check_keywords (params keywords : list string) : result unit :=
  if decide (Forall (λ k, k ∈ params) keywords) then Ret tt else Raise TypeError.

(** An object [other] handed to [__eq__]: a [Patient] or some other value. *)
Inductive pyobject : Type :=
  | PatientObj (p : Patient)
  | JsonObj (v : json).

(** [Patient.__eq__] *)
Definition Patient_eq (self : Patient) (other : pyobject) : bool :=
  match other with
  | JsonObj _ => false
  | PatientObj other =>
      if bool_decide (first_name self = first_name other)
         && bool_decide (last_name self = last_name other)
         && bool_decide (mrn self = mrn other)
         && bool_decide (age self = age other)
      then true
      else false
  end.

Definition newline : string := String "010"%char "".

(** [Patient.__str__] *)
Definition Patient_str (self : Patient) : string :=
  "Patient, mrn=" +:+ pretty (mrn self) +:+ ", " +:+
  first_name self +:+ " " +:+ last_name self.

(** [Patient.is_minor]: the lines printed to standard output, and the
    returned [True], [False] or [None]. *)
Definition is_minor (self : Patient) : list string * option bool :=
  if decide (age self = 0) then (["Didn't work"], None)
  else if decide (age self < 18) then ([], Some true)
  else ([], Some false).

(** Truth value of the result of [is_minor] in an [if]. *)
Definition truthy (v : option bool) : bool :=
  match v with
  | Some b => b
  | None => false
  end.

Section CreateOutput.

(** ["{}".format(self.tests)], the built-in [repr] of a list of tuples. *)
Variable repr_tests : list (string * Z) -> string.

(** [Patient.create_output]: the lines printed and the string returned. *)
Definition create_output (self : Patient) : list string * string :=
  let out_string := "" in
  let out_string := out_string +:+
    ("Name: " +:+ first_name self +:+ " " +:+ last_name self +:+ newline) in
  let out_string := out_string +:+
    ("MRN: " +:+ pretty (mrn self) +:+ newline) in
  let (printed, minor) := is_minor self in
  let status := if truthy minor then "Minor" else "Adult" in
  let out_string := out_string +:+ ("Status: " +:+ status +:+ newline) in
  let out_string := out_string +:+
    ("Test Results: " +:+ repr_tests (tests self) +:+ newline) in
  (printed, out_string).

End CreateOutput.

(** [Patient.add_test_result]: [self.tests.append((test_name, test_value))] *)
Definition add_test_result (self : Patient) (test_name : string)
    (test_value : Z) : Patient :=
  let new_result := (test_name, test_value) in
  {| first_name := first_name self;
     last_name := last_name self;
     mrn := mrn self;
     age := age self;
     tests := tests self ++ [new_result] |}.

(** ** The document store *)

(** The collection of patient documents, one per medical record number. *)
Abbreviation database := (gmap Z Patient).

(** A computation that reads and writes the collection and may raise; the
    collection outlives an exception. *)
Definition io (A : Type) : Type := database -> result A * database.

Definition io_ret {A} (a : A) : io A := λ db, (Ret a, db).

Definition io_raise {A} (e : exn) : io A := λ db, (Raise e, db).

Definition io_lift {A} (m : result A) : io A := λ db, (m, db).

Definition io_bind {A B} (m : io A) (k : A -> io B) : io B :=
  λ db, match m db with
        | (Ret a, db') => k a db'
        | (Raise e, db') => (Raise e, db')
        end.

Global Instance io_mret : MRet io := @io_ret.
Global Instance io_mbind : MBind io := λ A B k m, io_bind m k.

(** Modelled from the spec: [Patient.save], absent from [patient_class.py].
    The persistence collaborator's [save(patient)] writes the full document
    under the patient's medical record number, durably and immediately
    (last write wins). *)
Definition Patient_save (self : Patient) : io unit :=
  λ db, (Ret tt, <[mrn self := self]> db).

(** Modelled from the spec: [Patient.get_patient_from_db], absent from
    [patient_class.py]. The persistence collaborator's
    [loadByIdentifier(id)] returns the patient stored under the identifier,
    or [None] when there is none. *)
Definition get_patient_from_db (mrn : Z) : io (option Patient) :=
  λ db, (Ret (db !! mrn), db).

(** ** Built-in string operations *)

(** [s.split(sep)] for a one-character separator: every occurrence of
    [sep] ends a field, so consecutive separators give empty fields. *)
Fixpoint str_split (sep : ascii) (s : string) : list string :=
  match s with
  | EmptyString => [""]
  | String c rest =>
      if decide (c = sep) then "" :: str_split sep rest
      else match str_split sep rest with
           | field :: fields => String c field :: fields
           | [] => [String c ""]
           end
  end.

(** [a, b = parts]: unpacking into exactly two targets. *)
Definition unpack2 {A} (parts : list A) : result (A * A) :=
  match parts with
  | [a; b] => Ret (a, b)
  | _ => Raise ValueError
  end.

(** Whitespace that [int] skips around the digits: tab, line feed,
    vertical tab, form feed, carriage return and space. *)
Definition is_space (c : ascii) : bool :=
  let n := N_of_ascii c in
  ((9 <=? n) && (n <=? 13) || (n =? 32))%N.

(** The value of a decimal digit character. *)
Definition digit_value (c : ascii) : option Z :=
  let n := N_of_ascii c in
  if ((48 <=? n) && (n <=? 57))%N then Some (Z.of_N n - 48) else None.

(** Scan of the digits of an integer literal: decimal digits, with single
    underscores allowed between two digits. Returns the value read and the
    rest of the string, or [None] for a misplaced underscore. *)
Fixpoint scan_digits (acc : Z) (after_underscore : bool) (s : string)
    : option (Z * string) :=
  match s with
  | EmptyString => if after_underscore then None else Some (acc, s)
  | String c rest =>
      match digit_value c with
      | Some d => scan_digits (10 * acc + d) false rest
      | None =>
          if decide (c = "_"%char)
          then if after_underscore then None else scan_digits acc true rest
          else if after_underscore then None else Some (acc, s)
      end
  end.

Fixpoint skip_spaces (s : string) : string :=
  match s with
  | String c rest => if is_space c then skip_spaces rest else s
  | EmptyString => s
  end.

(** An optional sign in front of the digits. *)
Definition split_sign (s : string) : bool * string :=
  match s with
  | String c rest =>
      if decide (c = "-"%char) then (true, rest)
      else if decide (c = "+"%char) then (false, rest)
      else (false, s)
  | EmptyString => (false, s)
  end.

(** The digits of a literal and the whitespace after them: the string
    must start with a digit and scan to trailing whitespace only. *)
Definition int_of_digits (negative : bool) (body : string) : result Z :=
  match body with
  | String c _ =>
      match digit_value c, scan_digits 0 false body with
      | Some _, Some (n, rest) =>
          match skip_spaces rest with
          | EmptyString => Ret (if negative then - n else n)
          | String _ _ => Raise ValueError
          end
      | _, _ => Raise ValueError
      end
  | EmptyString => Raise ValueError
  end.

(** The sign and digits of a literal, after the leading whitespace. *)
Definition int_of_signed (s : string) : result Z :=
  let (negative, body) := split_sign s in
  int_of_digits negative body.

(** The parse of an ASCII buffer as a base-10 integer: optional
    whitespace, an optional sign, decimal digits (single underscores may
    separate them), optional whitespace; anything else raises [ValueError].
    This is [int(s)] for an ASCII [str] below the interpreter's limit on
    the number of digits; [cpython_int] below is [int(s)] for every [str].
    Python integers are unbounded, and so is [Z]. *)
Definition py_int (s : string) : result Z :=
  int_of_signed (skip_spaces s).

(** *** [int] on any [str] *)

(** A decimal digit, as the Unicode database gives it for a character. *)
Inductive decimal : Set :=
  | Dec0 | Dec1 | Dec2 | Dec3 | Dec4 | Dec5 | Dec6 | Dec7 | Dec8 | Dec9.

(** ['0' + decimal] *)
Definition decimal_char (d : decimal) : ascii :=
  match d with
  | Dec0 => "0" | Dec1 => "1" | Dec2 => "2" | Dec3 => "3" | Dec4 => "4"
  | Dec5 => "5" | Dec6 => "6" | Dec7 => "7" | Dec8 => "8" | Dec9 => "9"
  end%char.

(** What [int] on a [str] takes from the running interpreter: its limit on
    the digits of an integer string ([sys.get_int_max_str_digits()]: 4300
    unless configured, 0 when the limit is disabled or the interpreter has
    none), and its Unicode database for the code points above ASCII
    (whether one is whitespace, and its decimal digit value if it has
    one). *)
Record interpreter : Type := mkInterpreter {
  int_max_str_digits : nat;
  unicode_isspace : N -> bool;
  unicode_todecimal : N -> option decimal
}.

(** The code points of a string of ASCII characters. *)
Fixpoint code_points (s : string) : list N :=
  match s with
  | EmptyString => []
  | String c rest => N_of_ascii c :: code_points rest
  end.

(** The ASCII buffer that [int] parses for a [str], given as its code
    points: an ASCII character stands for itself, any other whitespace
    becomes a space and any other decimal digit its ASCII digit; the first
    character that is none of these ends the buffer with a question mark,
    which no literal contains. *)
Fixpoint to_ascii (py : interpreter) (s : list N) : string :=
  match s with
  | [] => ""
  | ch :: rest =>
      if (ch <? 128)%N then String (ascii_of_N ch) (to_ascii py rest)
      else if unicode_isspace py ch then String " " (to_ascii py rest)
      else match unicode_todecimal py ch with
           | Some d => String (decimal_char d) (to_ascii py rest)
           | None => "?"
           end
  end.

(** The number of digit characters in a buffer. *)
Fixpoint count_digits (s : string) : nat :=
  match s with
  | EmptyString => 0%nat
  | String c rest =>
      match digit_value c with
      | Some _ => S (count_digits rest)
      | None => count_digits rest
      end
  end.

(** The limit applies to literals of more than 640 digits, when it is
    set, and rejects those with more digits than it allows. *)
Definition over_limit (py : interpreter) (digits : nat) : bool :=
  (640 <? digits)%nat && (0 <? int_max_str_digits py)%nat
  && (int_max_str_digits py <? digits)%nat.

(** [int(s)] for a [str] given as its code points: the buffer is parsed,
    and a well-formed literal beyond the limit on digits raises
    [ValueError] like a malformed one. *)
Definition cpython_int (py : interpreter) (s : list N) : result Z :=
  let buffer := to_ascii py s in
  match py_int buffer with
  | Ret n =>
      if over_limit py (count_digits buffer) then Raise ValueError else Ret n
  | Raise e => Raise e
  end.

(** ** The routes and their helpers ([health_db_for_giu.py]) *)

(** The dictionary of the [/new_patient] route once its keys and types are
    validated: [{"name": str, "id": int, "blood_type": str}]. *)
Record new_patient : Type := mkNewPatient {
  np_name : string;
  np_id : Z;
  np_blood_type : string
}.

(** The dictionary of the [/add_test] route once validated:
    [{"id": int, "test_name": str, "test_result": int}]. *)
Record new_test : Type := mkNewTest {
  nt_id : Z;
  nt_test_name : string;
  nt_test_result : Z
}.

(** The typed reading of a request dictionary: the entries the route reads
    after validation, when they have the validated types. *)
Definition as_new_patient (in_data : gmap string json) : option new_patient :=
  match in_data !! "name", in_data !! "id", in_data !! "blood_type" with
  | Some (JStr name), Some (JInt id), Some (JStr blood_type) =>
      Some (mkNewPatient name id blood_type)
  | _, _, _ => None
  end.

Definition as_new_test (in_data : gmap string json) : option new_test :=
  match in_data !! "id", in_data !! "test_name", in_data !! "test_result" with
  | Some (JInt id), Some (JStr test_name), Some (JInt test_result) =>
      Some (mkNewTest id test_name test_result)
  | _, _, _ => None
  end.

(** What a route hands to Flask: a body and a status code. *)
Inductive body : Type :=
  | Text (s : string)
  | PatientAdded (in_data : gmap string json)
  | TestResults (tests : list (string * Z)).

Definition response : Type := body * Z.

(** [get_patient] returns a [Patient] or [False]. *)
Inductive patient_or_false : Type :=
  | IsPatient (patient : Patient)
  | NoPatient.

(** [validate_patient_id] returns an [int] or [False]. *)
Inductive int_or_false : Set :=
  | IsInt (mrn : Z)
  | NotInt.

(** [add_patient_to_db(in_data)]: the name is split and unpacked, the
    constructor is called with three positional arguments and the keyword
    [blood_type], and the new patient is saved. *)
Definition add_patient_to_db (in_data : new_patient) : io unit :=
  '(first_name, last_name) ← io_lift (unpack2 (str_split " " (np_name in_data)));
  io_lift (check_keywords Patient_init_params ["blood_type"]);;
  let new_patient := Patient_init first_name last_name (np_id in_data) None None in
  Patient_save new_patient.

(** [get_patient(mrn)] *)
Definition get_patient (mrn : Z) : io patient_or_false :=
  patient ← get_patient_from_db mrn;
  match patient with
  | None => mret NoPatient
  | Some patient => mret (IsPatient patient)
  end.

(** [add_test_to_patient(in_data)] *)
Definition add_test_to_patient (in_data : new_test) : io check :=
  patient ← get_patient (nt_id in_data);
  match patient with
  | NoPatient => mret (CheckMsg "Patient not found")
  | IsPatient patient =>
      let patient := add_test_result patient (nt_test_name in_data)
                       (nt_test_result in_data) in
      Patient_save patient;;
      mret CheckTrue
  end.

(** [validate_patient_id(patient_id)], for the built-in [int] given as
    [int_] on strings of type [S]. *)
Definition validate_patient_id_with {S : Type} (int_ : S -> result Z)
    (patient_id : S) : result int_or_false :=
  match int_ patient_id with
  | Ret mrn => Ret (IsInt mrn)
  | Raise ValueError => Ret NotInt
  | Raise e => Raise e
  end.

(** [validate_patient_id] on an ASCII path segment below the limit on
    digits, where [int] is the parse of the segment itself. *)
Definition validate_patient_id (patient_id : string) : result int_or_false :=
  validate_patient_id_with py_int patient_id.

(** The [/new_patient] route on a body that is a JSON object, from the
    decoded dictionary to the response ([post_new_patient_json] below takes
    any decoded body); the log entry is left out. A dictionary that passed
    [validate_post_input] has the three typed entries
    ([validated_as_new_patient]), so the [KeyError] branch is never taken. *)
Definition post_new_patient (in_data : gmap string json) : io response :=
  let expected_keys := ["name"; "id"; "blood_type"] in
  let expected_types := [Tstr; Tint; Tstr] in
  match Validator.validate_post_input in_data expected_keys expected_types with
  | CheckMsg check_results => mret (Text check_results, 400)
  | CheckTrue =>
      match as_new_patient in_data with
      | None => io_raise KeyError
      | Some valid =>
          match Validator.validate_blood_type (np_blood_type valid) with
          | CheckMsg check_blood_type => mret (Text check_blood_type, 400)
          | CheckTrue =>
              add_patient_to_db valid;;
              mret (PatientAdded in_data, 200)
          end
      end
  end.

(** The [/add_test] route on a body that is a JSON object
    ([post_add_test_json] below takes any decoded body); its [KeyError]
    branch is never taken either ([validated_as_new_test]). *)
Definition post_add_test (in_data : gmap string json) : io response :=
  let expected_keys := ["id"; "test_name"; "test_result"] in
  let expected_types := [Tint; Tstr; Tint] in
  match Validator.validate_post_input in_data expected_keys expected_types with
  | CheckMsg check_input => mret (Text check_input, 400)
  | CheckTrue =>
      match as_new_test in_data with
      | None => io_raise KeyError
      | Some valid =>
          result ← add_test_to_patient valid;
          match result with
          | CheckMsg result => mret (Text result, 400)
          | CheckTrue => mret (Text "Test added", 200)
          end
      end
  end.

(** The [/get_results/<patient_id>] route, for the built-in [int] given
    as [int_]. *)
Definition get_get_results_with {S : Type} (int_ : S -> result Z)
    (patient_id : S) : io response :=
  mrn ← io_lift (validate_patient_id_with int_ patient_id);
  match mrn with
  | NotInt => mret (Text "Given patient id is not an integer", 400)
  | IsInt mrn =>
      patient ← get_patient mrn;
      match patient with
      | NoPatient =>
          mret (Text ("Patient id of " +:+ pretty mrn +:+
                      " not found in database."), 400)
      | IsPatient patient => mret (TestResults (tests patient), 200)
      end
  end.

(** The route on an ASCII path segment below the limit on digits. *)
Definition get_get_results (patient_id : string) : io response :=
  get_get_results_with py_int patient_id.

(** *** The routes on any decoded body *)

(** [p] is a prefix of [s]. *)
Fixpoint is_prefix (p s : string) : bool :=
  match p, s with
  | EmptyString, _ => true
  | String a p', String b s' => bool_decide (a = b) && is_prefix p' s'
  | String _ _, EmptyString => false
  end.

(** [p in s] for two [str]: [p] occurs in [s] as a substring. *)
Fixpoint is_infix (p s : string) : bool :=
  is_prefix p s ||
  match s with
  | String _ s' => is_infix p s'
  | EmptyString => false
  end.

(** [ex_key in in_data] for a [str] key and any JSON value: a key of a
    dictionary, an element of a list, a substring of a string; the other
    values are not containers and raise [TypeError]. *)
Definition py_contains (ex_key : string) (in_data : json) : result bool :=
  match in_data with
  | JDict d => Ret (bool_decide (is_Some (d !! ex_key)))
  | JList l =>
      Ret (existsb (λ x, match x with
                         | JStr s => bool_decide (s = ex_key)
                         | _ => false
                         end) l)
  | JStr s => Ret (is_infix ex_key s)
  | JNull | JBool _ | JInt _ | JFloat _ => Raise TypeError
  end.

(** [in_data[ex_key]] for a [str] key and any JSON value: the entry of a
    dictionary ([KeyError] when absent); a string or a list cannot be
    indexed by a [str] and the other values not at all ([TypeError]). *)
Definition py_getitem (in_data : json) (ex_key : string) : result json :=
  match in_data with
  | JDict d =>
      match d !! ex_key with
      | Some v => Ret v
      | None => Raise KeyError
      end
  | _ => Raise TypeError
  end.

(** The loop of [validate_post_input] when [in_data] is any JSON value,
    as [request.get_json()] may return. *)
Fixpoint validate_post_input_json_loop (in_data : json)
    (pairs : list (string * pytype)) : result check :=
  match pairs with
  | [] => Ret CheckTrue
  | (ex_key, ex_type) :: rest =>
      match py_contains ex_key in_data with
      | Raise e => Raise e
      | Ret false => Ret (CheckMsg (Validator.key_not_found ex_key))
      | Ret true =>
          match py_getitem in_data ex_key with
          | Raise e => Raise e
          | Ret v =>
              if decide (type_of v = ex_type)
              then validate_post_input_json_loop in_data rest
              else Ret (CheckMsg (Validator.not_expected_type ex_key ex_type))
          end
      end
  end.

Definition validate_post_input_json (in_data : json)
    (expected_keys : list string) (expected_types : list pytype)
    : result check :=
  validate_post_input_json_loop in_data (zip expected_keys expected_types).

(** The [/new_patient] route on any decoded body. On an object it is
    [post_new_patient]; on another value the validation returns a message
    or raises, and would it pass, [in_data["blood_type"]] raises. *)
Definition post_new_patient_json (in_data : json) : io response :=
  match in_data with
  | JDict d => post_new_patient d
  | _ =>
      check_results ← io_lift (validate_post_input_json in_data
                                 ["name"; "id"; "blood_type"] [Tstr; Tint; Tstr]);
      match check_results with
      | CheckMsg check_results => mret (Text check_results, 400)
      | CheckTrue => io_raise TypeError
      end
  end.

(** The [/add_test] route on any decoded body, likewise. *)
Definition post_add_test_json (in_data : json) : io response :=
  match in_data with
  | JDict d => post_add_test d
  | _ =>
      check_input ← io_lift (validate_post_input_json in_data
                               ["id"; "test_name"; "test_result"] [Tint; Tstr; Tint]);
      match check_input with
      | CheckMsg check_input => mret (Text check_input, 400)
      | CheckTrue => io_raise TypeError
      end
  end.

(** The record that [initialize_server] registers at start-up. *)
Definition ann_ables : new_patient :=
  {| np_name := "Ann Ables"; np_id := 1; np_blood_type := "A+" |}.

(** ** Notions used in the statements *)

(** The entry for [ex_key] is present with exactly the type [ex_type]. *)
Definition entry_ok (in_data : gmap string json) (ex_key : string)
    (ex_type : pytype) : Prop :=
  ∃ v, in_data !! ex_key = Some v ∧ type_of v = ex_type.

(** The entry for [ex_key] is invalid, and [msg] is the message for it:
    the key is absent and the message says so with the key's name, or its
    value has another type than [ex_type] and the message gives the key's
    name and the rendering of the expected class. *)
Definition entry_fails (in_data : gmap string json) (ex_key : string)
    (ex_type : pytype) (msg : string) : Prop :=
  (in_data !! ex_key = None ∧
   msg = "Key " +:+ ex_key +:+ " is not found in input.") ∨
  (∃ v, in_data !! ex_key = Some v ∧ type_of v ≠ ex_type ∧
        msg = "The value for key " +:+ ex_key +:+
              " is not the expected type of " +:+ format_type ex_type +:+ ".").

(** A sequence of [add_test_to_patient] calls for one patient, in order. *)
Fixpoint add_tests_to_patient (mrn : Z) (results : list (string * Z))
    : io (list check) :=
  match results with
  | [] => mret []
  | (test_name, test_result) :: rest =>
      r ← add_test_to_patient (mkNewTest mrn test_name test_result);
      rs ← add_tests_to_patient mrn rest;
      mret (r :: rs)
  end.

(** The patient [p] with [results] appended to its tests. *)
Definition with_tests_appended (p : Patient) (results : list (string * Z))
    : Patient :=
  mkPatient (first_name p) (last_name p) (mrn p) (age p) (tests p ++ results).

(** The request dictionary that carries a test result. *)
Definition new_test_dict (t : new_test) : gmap string json :=
  {[ "id" := JInt (nt_id t); "test_name" := JStr (nt_test_name t);
     "test_result" := JInt (nt_test_result t) ]}.

(** The request dictionary that carries a registration. *)
Definition new_patient_dict (n : new_patient) : gmap string json :=
  {[ "name" := JStr (np_name n); "id" := JInt (np_id n);
     "blood_type" := JStr (np_blood_type n) ]}.

(** [repr] of a list of tests whose names are plain: printable ASCII
    without quotes or backslashes. *)
Definition repr_plain_tests (tests : list (string * Z)) : string :=
  let item (t : string * Z) := "('" +:+ t.1 +:+ "', " +:+ pretty t.2 +:+ ")" in
  "[" +:+ String.concat ", " (map item tests) +:+ "]".

(** The grammar of the literals that [int] accepts, stated apart from
    the parser, over the characters written out here. *)

(** The ten decimal digits with their values. *)
Definition decimal_digits : list (ascii * Z) :=
  [("0", 0); ("1", 1); ("2", 2); ("3", 3); ("4", 4);
   ("5", 5); ("6", 6); ("7", 7); ("8", 8); ("9", 9)]%char.

Definition digit_char (c : ascii) (d : Z) : Prop := (c, d) ∈ decimal_digits.

(** Space, tab, line feed, vertical tab, form feed and carriage return. *)
Definition space_chars : list ascii :=
  [" "; "009"; "010"; "011"; "012"; "013"]%char.

Definition space_char (c : ascii) : Prop := c ∈ space_chars.

Fixpoint whitespace (s : string) : Prop :=
  match s with
  | EmptyString => True
  | String c rest => space_char c ∧ whitespace rest
  end.

(** [digits_tail acc tail n]: after digits worth [acc], the string [tail]
    continues the literal with digits, each optionally preceded by one
    underscore, and the whole is worth [n]. *)
Inductive digits_tail : Z → string → Z → Prop :=
  | tail_end acc : digits_tail acc "" acc
  | tail_digit acc c d tail n :
      digit_char c d →
      digits_tail (10 * acc + d) tail n →
      digits_tail acc (String c tail) n
  | tail_underscore acc c d tail n :
      digit_char c d →
      digits_tail (10 * acc + d) tail n →
      digits_tail acc (String "_" (String c tail)) n.

Fixpoint all_space (s : string) : bool :=
  match s with
  | EmptyString => true
  | String c rest => is_space c && all_space rest
  end.

(** [s] is an integer literal of value [z]: whitespace, an optional sign,
    a digit and its tail, whitespace. *)
Definition int_literal (s : string) (z : Z) : Prop :=
  ∃ ws1 sign c d tail ws2 n,
    s = ws1 +:+ sign +:+ String c tail +:+ ws2 ∧
    whitespace ws1 ∧ whitespace ws2 ∧
    digit_char c d ∧ digits_tail d tail n ∧
    (((sign = "" ∨ sign = "+") ∧ z = n) ∨ (sign = "-" ∧ z = - n)).

(** The number of decimal digits in a string. *)
Fixpoint digit_count (s : string) : nat :=
  match s with
  | EmptyString => 0%nat
  | String c rest =>
      if decide (c ∈ decimal_digits.*1) then S (digit_count rest)
      else digit_count rest
  end.

(** How [int] reads one character of a [str]: an ASCII character as
    itself, any other whitespace as a space, any other decimal digit as
    its ASCII digit; other characters have no reading. *)
Definition char_reads (py : interpreter) (ch : N) (c : ascii) : Prop :=
  ((ch < 128)%N ∧ c = ascii_of_N ch) ∨
  ((128 ≤ ch)%N ∧ unicode_isspace py ch = true ∧ c = " "%char) ∨
  ((128 ≤ ch)%N ∧ unicode_isspace py ch = false ∧
   ∃ d, unicode_todecimal py ch = Some d ∧ c = decimal_char d).

Inductive reads_as (py : interpreter) : list N → string → Prop :=
  | reads_nil : reads_as py [] ""
  | reads_cons ch c s a :
      char_reads py ch c → reads_as py s a →
      reads_as py (ch :: s) (String c a).

(** The digits of a literal are within the interpreter's limit: there are
    at most 640 of them, or no limit is set, or no more than the limit. *)
Definition within_limit (py : interpreter) (digits : nat) : Prop :=
  (digits ≤ 640 ∨ int_max_str_digits py = 0 ∨
   digits ≤ int_max_str_digits py)%nat.

(** The [str] with code points [s] is an integer literal of value [z]
    that [int] accepts under the interpreter [py]. *)
Definition accepted_literal (py : interpreter) (s : list N) (z : Z) : Prop :=
  ∃ a, reads_as py s a ∧ int_literal a z ∧ within_limit py (digit_count a).

(** Every character of [s] satisfies [P]. *)
Fixpoint str_forall (P : ascii → Prop) (s : string) : Prop :=
  match s with
  | EmptyString => True
  | String c rest => P c ∧ str_forall P rest
  end.

(** An interpreter with the default limit of 4300 digits. Its tables
    for the code points above ASCII are left empty: it is used on ASCII
    strings, where they are not consulted. *)
Definition default_limit : interpreter :=
  {| int_max_str_digits := 4300;
     unicode_isspace := λ _, false;
     unicode_todecimal := λ _, None |}.

(** The string of [n] copies of the character [c]. *)
Fixpoint str_replicate (n : nat) (c : ascii) : string :=
  match n with
  | O => ""
  | S n => String c (str_replicate n c)
  end.

(** Where the scan of the digits stops: at the end of the string or at a
    character that is neither a digit nor an underscore. *)
Definition scan_stops (rest : string) : Prop :=
  match rest with
  | EmptyString => True
  | String c _ => digit_value c = None ∧ c ≠ "_"%char
  end.

(** The store keeps every document under its own medical record number. *)
Definition keyed_by_mrn (db : database) : Prop :=
  map_Forall (λ m p, mrn p = m) db.


(** The number of occurrences of the character [c] in [s]. *)
Fixpoint count_char (c : ascii) (s : string) : nat :=
  match s with
  | EmptyString => 0%nat
  | String x rest =>
      if decide (x = c) then S (count_char c rest) else count_char c rest
  end.

(** [c] occurs in [s]. *)
Fixpoint occurs (c : ascii) (s : string) : bool :=
  match s with
  | EmptyString => false
  | String x rest => bool_decide (x = c) || occurs c rest
  end.

(** * Properties *)

(** ** Request validation *)

Section ValidatorFacts.

Import Validator.

Variable in_data : gmap string json.

Lemma loop_true pairs :
  validate_post_input_loop in_data pairs = CheckTrue ↔
  Forall (λ p, entry_ok in_data p.1 p.2) pairs.
Proof.
  induction pairs as [|[k t] rest IH]; simpl.
  - split; [constructor | done].
  - rewrite Forall_cons, <- IH. unfold entry_ok; simpl.
    destruct (in_data !! k) as [v|] eqn:Hk.
    + destruct (decide (type_of v = t)) as [Ht|Ht].
      * split; [eauto | tauto].
      * split; [done | intros [(v' & [= <-] & ?) _]; done].
    + split; [done | intros [(v' & ? & _) _]; done].
Qed.

Lemma loop_msg pairs msg :
  validate_post_input_loop in_data pairs = CheckMsg msg ↔
  ∃ i k t, pairs !! i = Some (k, t) ∧
           Forall (λ p, entry_ok in_data p.1 p.2) (take i pairs) ∧
           entry_fails in_data k t msg.
Proof.
  induction pairs as [|[k t] rest IH]; simpl.
  - split; [done | intros (i & ? & ? & Hi & _); by destruct i].
  - destruct (in_data !! k) as [v|] eqn:Hk;
      [destruct (decide (type_of v = t)) as [Ht|Ht]|].
    + rewrite IH. split.
      * intros (i & k' & t' & Hi & Hpre & Hf).
        exists (S i), k', t'. simpl. split_and!; [done| |done].
        constructor; [by exists v | done].
      * intros ([|i] & k' & t' & Hi & Hpre & Hf); simpl in *.
        -- injection Hi as <- <-.
           destruct Hf as [[Hn _]|(v' & Hv' & Hne & _)]; congruence.
        -- apply Forall_cons in Hpre as [_ Hpre]. eauto 10.
    + split.
      * intros [= <-]. exists 0%nat, k, t. split_and!; [done|constructor|].
        right. eauto.
      * intros ([|i] & k' & t' & Hi & Hpre & Hf); simpl in *.
        -- injection Hi as <- <-.
           destruct Hf as [[Hn _]|(v' & Hv' & Hne & ->)];
             first [congruence | reflexivity].
        -- apply Forall_cons in Hpre as [(v' & Hv' & Ht') _]; simpl in *.
           congruence.
    + split.
      * intros [= <-]. exists 0%nat, k, t. split_and!; [done|constructor|].
        by left.
      * intros ([|i] & k' & t' & Hi & Hpre & Hf); simpl in *.
        -- injection Hi as <- <-.
           destruct Hf as [[_ ->]|(v' & Hv' & _)];
             first [congruence | reflexivity].
        -- apply Forall_cons in Hpre as [(v' & Hv' & _) _]; simpl in *.
           congruence.
Qed.

Lemma loop_agree (in_data' : gmap string json) pairs :
  (∀ k, k ∈ pairs.*1 → in_data' !! k = in_data !! k) →
  validate_post_input_loop in_data' pairs =
  validate_post_input_loop in_data pairs.
Proof.
  induction pairs as [|[k t] rest IH]; simpl; intros Hag; [done|].
  rewrite (Hag k) by left.
  rewrite IH; [done|]. intros k' Hk'. apply Hag. by right.
Qed.

End ValidatorFacts.

Lemma str_length_app (a b : string) :
  String.length (a +:+ b) = (String.length a + String.length b)%nat.
Proof.
  induction a as [|c a IH]; [done|].
  change (S (String.length (a +:+ b))
          = S (String.length a + String.length b)). by rewrite IH.
Qed.

(** A common suffix cancels. *)
Lemma str_app_inj_r (s a b : string) : a +:+ s = b +:+ s → a = b.
Proof.
  revert b. induction a as [|c a IH]; intros [|c' b] H; [done| | |].
  - apply (f_equal String.length) in H.
    change (String c' b +:+ s) with (String c' (b +:+ s)) in H.
    change ("" +:+ s) with s in H. simpl in H.
    rewrite str_length_app in H. lia.
  - apply (f_equal String.length) in H.
    change (String c a +:+ s) with (String c (a +:+ s)) in H.
    change ("" +:+ s) with s in H. simpl in H.
    rewrite str_length_app in H. lia.
  - change (String c (a +:+ s) = String c' (b +:+ s)) in H.
    injection H as -> H. by rewrite (IH b H).
Qed.

(** C3. [validate_post_input] reports the first invalid entry in the order
    of the expected keys. It returns a message exactly when some position
    [i] of the parallel lists holds a key [k] with expected type [t] such
    that every earlier entry is present with its exact type and the entry
    for [k] is invalid; the message is then [Key k is not found in input.]
    when [k] is absent, and [The value for key k is not the expected type
    of <class 't'>.] when the value of [k] has any other type. Either
    message names one key only, and the two kinds never coincide. Types
    are compared exactly: a [float] under an expected [int], an [int] under
    an expected [float], and a [bool] under an expected [int] are all
    mismatches. *)
Theorem validate_post_input_first_invalid
    (in_data : gmap string json) (keys : list string) (types : list pytype) :
  (∀ msg,
      Validator.validate_post_input in_data keys types = CheckMsg msg ↔
      ∃ (i : nat) k t,
        keys !! i = Some k ∧ types !! i = Some t ∧
        (∀ (j : nat) k' t', (j < i)%nat ∧ keys !! j = Some k' ∧
                            types !! j = Some t' → entry_ok in_data k' t') ∧
        entry_fails in_data k t msg) ∧
  (format_type NoneType = "<class 'NoneType'>" ∧
   format_type Tbool = "<class 'bool'>" ∧
   format_type Tint = "<class 'int'>" ∧
   format_type Tfloat = "<class 'float'>" ∧
   format_type Tstr = "<class 'str'>" ∧
   format_type Tlist = "<class 'list'>" ∧
   format_type Tdict = "<class 'dict'>" ∧
   ∀ q, format_type (Tclass q) = "<class '" +:+ q +:+ "'>") ∧
  (∀ k k' t t',
      ("Key " +:+ k +:+ " is not found in input."
       = "Key " +:+ k' +:+ " is not found in input." → k = k') ∧
      ("The value for key " +:+ k +:+
         " is not the expected type of " +:+ format_type t +:+ "."
       = "The value for key " +:+ k' +:+
         " is not the expected type of " +:+ format_type t +:+ "." → k = k') ∧
      "Key " +:+ k +:+ " is not found in input."
      ≠ "The value for key " +:+ k' +:+
        " is not the expected type of " +:+ format_type t' +:+ ".") ∧
  (∀ k f z b,
      Validator.validate_post_input (<[k := JFloat f]> in_data) [k] [Tint]
        = CheckMsg ("The value for key " +:+ k +:+
                    " is not the expected type of <class 'int'>.") ∧
      Validator.validate_post_input (<[k := JInt z]> in_data) [k] [Tfloat]
        = CheckMsg ("The value for key " +:+ k +:+
                    " is not the expected type of <class 'float'>.") ∧
      Validator.validate_post_input (<[k := JBool b]> in_data) [k] [Tint]
        = CheckMsg ("The value for key " +:+ k +:+
                    " is not the expected type of <class 'int'>.")).
Proof.
  split_and!; try reflexivity.
  - intros msg. unfold Validator.validate_post_input. rewrite loop_msg.
    split.
    + intros (i & k & t & Hi & Hpre & Hf).
      apply lookup_zip_Some in Hi as [Hk Ht].
      exists i, k, t. split_and!; [done..| |done].
      intros j k' t' (Hj & Hk' & Ht').
      rewrite Forall_lookup in Hpre.
      apply (Hpre j (k', t')). rewrite lookup_take_lt by done.
      by apply lookup_zip_Some.
    + intros (i & k & t & Hk & Ht & Hpre & Hf).
      exists i, k, t. split_and!; [by apply lookup_zip_Some| |done].
      apply Forall_lookup. intros j [k' t'] Hj.
      apply lookup_take_Some in Hj as [Hj Hlt].
      apply lookup_zip_Some in Hj as [Hk' Ht']. simpl. eauto.
  - intros k k' t t'. split_and!.
    + intros H. apply (inj (String.append "Key ")) in H.
      by apply str_app_inj_r in H.
    + intros H. apply (inj (String.append "The value for key ")) in H.
      by apply str_app_inj_r in H.
    + discriminate.
  - intros k f z b. unfold Validator.validate_post_input. simpl.
    by rewrite !lookup_insert_eq.
Qed.

(** The reported key depends on the order of the expected keys. *)
Example validate_post_input_order :
  let in_data : gmap string json := {[ "id" := JStr "one" ]} in
  Validator.validate_post_input in_data ["name"; "id"] [Tstr; Tint]
    = CheckMsg "Key name is not found in input." ∧
  Validator.validate_post_input in_data ["id"; "name"] [Tint; Tstr]
    = CheckMsg "The value for key id is not the expected type of <class 'int'>.".
Proof. split; reflexivity. Qed.

(** C7. For parallel lists of expected keys and types,
    [validate_post_input] returns [True] exactly when every expected key is
    present with exactly its expected type, and entries under other keys
    never change the result. *)
Theorem validate_post_input_success
    (in_data : gmap string json) (keys : list string) (types : list pytype) :
  length keys = length types →
  (Validator.validate_post_input in_data keys types = CheckTrue ↔
   ∀ (i : nat) k, keys !! i = Some k →
                  ∃ t, types !! i = Some t ∧ entry_ok in_data k t) ∧
  (∀ extra : gmap string json,
      (∀ k, k ∈ keys → extra !! k = None) →
      Validator.validate_post_input (in_data ∪ extra) keys types
        = Validator.validate_post_input in_data keys types).
Proof.
  intros Hlen. split.
  - unfold Validator.validate_post_input. rewrite loop_true, Forall_lookup.
    split.
    + intros Hall i k Hk.
      destruct (lookup_lt_is_Some_2 types i) as [t Ht].
      { rewrite <- Hlen. by eapply lookup_lt_Some. }
      exists t. split; [done|].
      apply (Hall i (k, t)). by apply lookup_zip_Some.
    + intros Hall i [k t] Hi. apply lookup_zip_Some in Hi as [Hk Ht].
      destruct (Hall i k Hk) as (t' & Ht' & Hok). simpl. congruence.
  - intros extra Hextra. unfold Validator.validate_post_input.
    apply loop_agree. intros k Hk.
    apply lookup_union_l. apply Hextra.
    apply list_elem_of_fmap in Hk as ([k' t] & -> & Hin).
    by eapply elem_of_zip_l.
Qed.

Lemma validate_post_input_success_witness :
  let in_data : gmap string json :=
    {[ "name" := JStr "Ann Ables"; "id" := JInt 1;
       "blood_type" := JStr "A+"; "note" := JBool true ]} in
  length ["name"; "id"; "blood_type"] = length [Tstr; Tint; Tstr] ∧
  Validator.validate_post_input in_data
    ["name"; "id"; "blood_type"] [Tstr; Tint; Tstr] = CheckTrue.
Proof.
  intros in_data. split; [reflexivity|].
  apply (validate_post_input_success in_data
           ["name"; "id"; "blood_type"] [Tstr; Tint; Tstr]); [reflexivity|].
  intros [|[|[|i]]] k Hk; simplify_eq/=; eexists; (split; [done|]);
    eexists; split; reflexivity.
Defined.

(** C6. [validate_blood_type] returns [True] exactly for the eight
    blood-type strings, compared case-sensitively, and for every other
    string returns the message naming the given value. *)
Theorem validate_blood_type_iff (blood_type : string) :
  let canonical :=
    blood_type = "A+" ∨ blood_type = "A-" ∨ blood_type = "B+" ∨
    blood_type = "B-" ∨ blood_type = "AB+" ∨ blood_type = "AB-" ∨
    blood_type = "O+" ∨ blood_type = "O-" in
  (Validator.validate_blood_type blood_type = CheckTrue ↔ canonical) ∧
  (Validator.validate_blood_type blood_type
     = CheckMsg ("Given blood type of " +:+ blood_type +:+ " is not valid.")
   ↔ ¬ canonical) ∧
  Validator.validate_blood_type "A+" = CheckTrue ∧
  Validator.validate_blood_type "AB+" = CheckTrue ∧
  Validator.validate_blood_type "a+"
    = CheckMsg "Given blood type of a+ is not valid." ∧
  Validator.validate_blood_type "Z+"
    = CheckMsg "Given blood type of Z+ is not valid.".
Proof.
  intros canonical.
  assert (blood_type ∈ Validator.valid_blood_types ↔ canonical) as Hin.
  { unfold Validator.valid_blood_types, canonical.
    rewrite !elem_of_cons, elem_of_nil. tauto. }
  unfold Validator.validate_blood_type.
  split_and!; try reflexivity.
  - destruct (decide _) as [H|H]; rewrite <- Hin; split; done.
  - destruct (decide _) as [H|H]; rewrite <- Hin; split; done.
Qed.

(** ** The [Patient] class *)

Lemma str_app_assoc (a b c : string) : (a +:+ b) +:+ c = a +:+ (b +:+ c).
Proof.
  induction a as [|x a IH]; [done|].
  change (String x ((a +:+ b) +:+ c) = String x (a +:+ (b +:+ c))).
  by rewrite IH.
Qed.

(** C9. Two patients are equal under [__eq__] exactly when their first
    name, last name, medical record number and age agree; the tests are not
    compared, so patients that differ only in their tests are equal. *)
Theorem Patient_eq_iff (p q : Patient) :
  (Patient_eq p (PatientObj q) = true ↔
   first_name p = first_name q ∧ last_name p = last_name q ∧
   mrn p = mrn q ∧ age p = age q) ∧
  (∀ tests', Patient_eq p (PatientObj (mkPatient (first_name p)
               (last_name p) (mrn p) (age p) tests')) = true).
Proof.
  split.
  - unfold Patient_eq.
    destruct (bool_decide (first_name p = first_name q)) eqn:H1;
    destruct (bool_decide (last_name p = last_name q)) eqn:H2;
    destruct (bool_decide (mrn p = mrn q)) eqn:H3;
    destruct (bool_decide (age p = age q)) eqn:H4; simpl;
    try apply bool_decide_eq_true in H1; try apply bool_decide_eq_true in H2;
    try apply bool_decide_eq_true in H3; try apply bool_decide_eq_true in H4;
    try apply bool_decide_eq_false in H1; try apply bool_decide_eq_false in H2;
    try apply bool_decide_eq_false in H3; try apply bool_decide_eq_false in H4;
    split; (done || tauto).
  - intros tests'. unfold Patient_eq; simpl.
    by rewrite !bool_decide_eq_true_2.
Qed.

Example Patient_eq_tests_differ :
  Patient_eq (mkPatient "Ann" "Ables" 1 0 [])
    (PatientObj (mkPatient "Ann" "Ables" 1 0 [("glucose", 90)])) = true ∧
  Patient_eq (mkPatient "Ann" "Ables" 1 0 []) (JsonObj (JInt 1)) = false.
Proof. split; reflexivity. Qed.

(** C10. For a patient whose age is 0, [is_minor] returns [None] (after
    printing its notice), and [create_output] renders the status line as
    [Status: Adult]. *)
Theorem is_minor_unknown_age
    (repr_tests : list (string * Z) → string) (p : Patient) :
  age p = 0 →
  is_minor p = (["Didn't work"], None) ∧
  create_output repr_tests p =
    (["Didn't work"],
     "Name: " +:+ first_name p +:+ " " +:+ last_name p +:+ newline +:+
     "MRN: " +:+ pretty (mrn p) +:+ newline +:+
     "Status: Adult" +:+ newline +:+
     "Test Results: " +:+ repr_tests (tests p) +:+ newline).
Proof.
  intros Hage.
  assert (is_minor p = (["Didn't work"], None)) as Hm.
  { unfold is_minor. by rewrite decide_True. }
  split; [done|].
  unfold create_output. rewrite Hm. simpl.
  change ("" +:+ ?s) with s. by rewrite !str_app_assoc.
Qed.

Lemma is_minor_unknown_age_witness :
  let p := Patient_init "Ann" "Ables" 1 None None in
  age p = 0 ∧
  is_minor p = (["Didn't work"], None) ∧
  create_output repr_plain_tests p =
    (["Didn't work"],
     "Name: Ann Ables" +:+ newline +:+ "MRN: 1" +:+ newline +:+
     "Status: Adult" +:+ newline +:+ "Test Results: []" +:+ newline).
Proof.
  intros p. split; [reflexivity|].
  apply (is_minor_unknown_age repr_plain_tests p). reflexivity.
Defined.

(** ** Parsing the patient identifier *)

Lemma digit_value_pretty_N_char (n : N) :
  (n < 10)%N → digit_value (pretty_N_char n) = Some (Z.of_N n).
Proof.
  intros Hn.
  assert (n ∈ [0; 1; 2; 3; 4; 5; 6; 7; 8; 9]%N) as Hin.
  { rewrite !elem_of_cons. lia. }
  rewrite !elem_of_cons, elem_of_nil in Hin.
  destruct Hin as [->|[->|[->|[->|[->|[->|[->|[->|[->|[->|[]]]]]]]]]]];
    reflexivity.
Qed.

Lemma scan_digits_pretty_N_go (x : N) (s : string) :
  scan_digits 0 false (pretty_N_go x s) = scan_digits (Z.of_N x) false s.
Proof.
  revert s. induction (N.lt_wf_0 x) as [x _ IH]. intros s.
  destruct (decide (x = 0)%N) as [->|Hx]; [done|].
  rewrite pretty_N_go_step by lia.
  rewrite IH by (apply N.div_lt; lia). simpl.
  rewrite digit_value_pretty_N_char by (apply N.mod_lt; lia).
  f_equal. rewrite (N.div_mod x 10) at 3 by lia. lia.
Qed.

Lemma pretty_N_go_head (x : N) (s : string) :
  (0 < x)%N →
  ∃ c d rest, pretty_N_go x s = String c rest ∧ digit_value c = Some d.
Proof.
  revert s. induction (N.lt_wf_0 x) as [x _ IH]. intros s Hx.
  rewrite pretty_N_go_step by done.
  destruct (decide (x `div` 10 = 0)%N) as [->|Hd].
  - rewrite pretty_N_go_0. eexists _, _, _. split; [done|].
    apply digit_value_pretty_N_char, N.mod_lt. lia.
  - apply IH; [apply N.div_lt; lia | by apply N.neq_0_lt_0].
Qed.

Lemma digit_not_space (c : ascii) (d : Z) :
  digit_value c = Some d → is_space c = false.
Proof.
  unfold digit_value, is_space.
  destruct ((48 <=? N_of_ascii c)%N && (N_of_ascii c <=? 57)%N) eqn:H; [|done].
  intros _. apply andb_true_iff in H as [H1 H2].
  apply N.leb_le in H1, H2.
  apply orb_false_iff; split; [apply andb_false_iff; right|];
    [apply N.leb_gt | apply N.eqb_neq]; lia.
Qed.

Lemma digit_not_sign (c : ascii) (d : Z) :
  digit_value c = Some d → c ≠ "-"%char ∧ c ≠ "+"%char ∧ c ≠ "_"%char.
Proof. intros H. split_and!; intros ->; discriminate. Qed.

(** A string that starts with a digit and scans to the end is the literal
    of the value scanned. *)
Lemma py_int_digits (c : ascii) (d n : Z) (rest : string) :
  digit_value c = Some d →
  scan_digits 0 false (String c rest) = Some (n, "") →
  py_int (String c rest) = Ret n ∧
  py_int (String "-" (String c rest)) = Ret (- n).
Proof.
  intros Hd Hscan.
  pose proof (digit_not_space _ _ Hd) as Hsp.
  destruct (digit_not_sign _ _ Hd) as (Hm & Hp & _).
  unfold py_int; simpl skip_spaces. rewrite Hsp.
  unfold int_of_signed, int_of_digits, split_sign.
  rewrite (decide_False (P := c = "-"%char)) by done.
  rewrite (decide_False (P := c = "+"%char)) by done.
  rewrite decide_True by done.
  by rewrite Hd, Hscan.
Qed.

(** The decimal rendering of any integer parses back to that integer. *)
Lemma py_int_pretty (z : Z) : py_int (pretty z) = Ret z.
Proof.
  assert (∀ p, ∃ c d rest, pretty (N.pos p) = String c rest ∧
                          digit_value c = Some d ∧
                          scan_digits 0 false (String c rest)
                            = Some (Z.pos p, "")) as Hpos.
  { intros p. unfold pretty, pretty_N. rewrite decide_False by done.
    destruct (pretty_N_go_head (N.pos p) "") as (c & d & rest & Heq & Hd);
      [lia|].
    exists c, d, rest. split_and!; [done..|].
    by rewrite <- Heq, scan_digits_pretty_N_go. }
  destruct z as [|p|p]; [done| |].
  - destruct (Hpos p) as (c & d & rest & Heq & Hd & Hscan).
    change (pretty (Z.pos p)) with (pretty (N.pos p)). rewrite Heq.
    exact (proj1 (py_int_digits c d _ rest Hd Hscan)).
  - destruct (Hpos p) as (c & d & rest & Heq & Hd & Hscan).
    change (pretty (Z.neg p)) with (String "-" (pretty (N.pos p))).
    rewrite Heq. exact (proj2 (py_int_digits c d _ rest Hd Hscan)).
Qed.

(** *** The parser against the grammar *)

Lemma app_String (c : ascii) (a b : string) :
  String c a +:+ b = String c (a +:+ b).
Proof. reflexivity. Qed.

Lemma app_empty_l (b : string) : "" +:+ b = b.
Proof. reflexivity. Qed.

Lemma app_empty_r (a : string) : a +:+ "" = a.
Proof.
  induction a as [|c a IH]; [done|]. by rewrite app_String, IH.
Qed.

Lemma digit_value_char (c : ascii) (d : Z) :
  digit_value c = Some d ↔ digit_char c d.
Proof.
  unfold digit_char, decimal_digits. split.
  - intros H.
    destruct c as [[] [] [] [] [] [] [] []]; vm_compute in H;
      try discriminate; injection H as <-;
      repeat first [by apply list_elem_of_here | apply list_elem_of_further].
  - intros H.
    repeat (apply elem_of_cons in H as [[= -> ->]|H]; [reflexivity|]).
    by apply elem_of_nil in H.
Qed.

Lemma is_space_char (c : ascii) : is_space c = true ↔ space_char c.
Proof.
  unfold space_char, space_chars. split.
  - intros H.
    destruct c as [[] [] [] [] [] [] [] []]; vm_compute in H;
      try discriminate;
      repeat first [by apply list_elem_of_here | apply list_elem_of_further].
  - intros H.
    repeat (apply elem_of_cons in H as [->|H]; [reflexivity|]).
    by apply elem_of_nil in H.
Qed.

Lemma all_space_whitespace (s : string) : all_space s = true ↔ whitespace s.
Proof.
  induction s as [|c s IH]; simpl; [done|].
  by rewrite andb_true_iff, is_space_char, IH.
Qed.

Lemma scan_digits_sound (s : string) :
  ∀ acc flag n rest,
    scan_digits acc flag s = Some (n, rest) →
    scan_stops rest ∧
    if flag : bool
    then ∃ c d tail, s = String c tail +:+ rest ∧ digit_value c = Some d ∧
                     digits_tail (10 * acc + d) tail n
    else ∃ tail, s = tail +:+ rest ∧ digits_tail acc tail n.
Proof.
  induction s as [|c s IH]; intros acc flag n rest; simpl.
  - destruct flag; [done|]. intros [= <- <-]. split; [done|].
    exists "". split; [done | constructor].
  - destruct (digit_value c) as [d|] eqn:Hd.
    + intros Hscan. apply IH in Hscan as (Hstop & tail & -> & Htail).
      split; [done|]. destruct flag.
      * by exists c, d, tail.
      * exists (String c tail). split; [done|].
        apply (tail_digit _ _ d); [by apply digit_value_char | done].
    + destruct (decide (c = "_"%char)) as [->|Hc].
      * destruct flag; [done|]. intros Hscan.
        apply IH in Hscan as (Hstop & c2 & d2 & tail & -> & Hd2 & Htail).
        split; [done|]. exists (String "_" (String c2 tail)).
        split; [done|].
        apply (tail_underscore _ _ d2); [by apply digit_value_char | done].
      * destruct flag; [done|]. intros [= <- <-]. split; [done|].
        exists "". split; [done | constructor].
Qed.

Lemma scan_digits_complete acc tail n :
  digits_tail acc tail n →
  ∀ rest, scan_stops rest →
          scan_digits acc false (tail +:+ rest) = Some (n, rest).
Proof.
  induction 1 as [acc|acc c d tail n Hd _ IH|acc c d tail n Hd _ IH];
    intros rest Hstop; try apply digit_value_char in Hd.
  - rewrite app_empty_l. destruct rest as [|c rest]; [done|].
    destruct Hstop as [Hd Hc]. simpl. rewrite Hd.
    by rewrite decide_False.
  - rewrite app_String. simpl. rewrite Hd. by apply IH.
  - rewrite !app_String. simpl. rewrite Hd. by apply IH.
Qed.

Lemma skip_spaces_app (ws rest : string) :
  all_space ws = true → skip_spaces (ws +:+ rest) = skip_spaces rest.
Proof.
  induction ws as [|c ws IH]; [done|].
  intros H. rewrite app_String. simpl in *.
  apply andb_true_iff in H as [Hc Hws]. rewrite Hc. by apply IH.
Qed.

Lemma skip_spaces_split (s : string) :
  ∃ ws, s = ws +:+ skip_spaces s ∧ all_space ws = true.
Proof.
  induction s as [|c s (ws & Hs & Hws)]; [by exists ""|]. simpl.
  destruct (is_space c) eqn:Hc.
  - exists (String c ws). rewrite app_String, <- Hs. simpl.
    by rewrite Hc, Hws.
  - by exists "".
Qed.

Lemma skip_spaces_empty (s : string) :
  skip_spaces s = "" ↔ all_space s = true.
Proof.
  induction s as [|c s IH]; [done|]. simpl.
  destruct (is_space c); simpl; [done|]. split; discriminate.
Qed.

Lemma skip_spaces_head (c : ascii) (s : string) :
  is_space c = false → skip_spaces (String c s) = String c s.
Proof. intros Hc. simpl. by rewrite Hc. Qed.

Lemma all_space_stops (ws : string) : all_space ws = true → scan_stops ws.
Proof.
  destruct ws as [|c ws]; [done|]. simpl.
  intros [Hc _]%andb_true_iff. split.
  - destruct (digit_value c) as [d|] eqn:Hd; [|done].
    apply digit_not_space in Hd. congruence.
  - intros ->. discriminate.
Qed.

Lemma int_of_digits_spec (negative : bool) (body : string) (z : Z) :
  int_of_digits negative body = Ret z ↔
  ∃ c d tail ws2 n,
    body = String c tail +:+ ws2 ∧ all_space ws2 = true ∧
    digit_value c = Some d ∧ digits_tail d tail n ∧
    z = if negative then - n else n.
Proof.
  split.
  - destruct body as [|c b]; [done|]. unfold int_of_digits.
    destruct (digit_value c) as [d|] eqn:Hd; [|done].
    destruct (scan_digits 0 false (String c b)) as [[n rest]|] eqn:Hscan;
      [|done].
    destruct (skip_spaces rest) eqn:Hrest; [|done].
    intros [= <-]. apply skip_spaces_empty in Hrest.
    simpl in Hscan. rewrite Hd in Hscan.
    apply scan_digits_sound in Hscan as (_ & tail & -> & Htail).
    by exists c, d, tail, rest, n.
  - intros (c & d & tail & ws2 & n & -> & Hws & Hd & Htail & ->).
    rewrite app_String. unfold int_of_digits. rewrite Hd.
    simpl scan_digits. rewrite Hd.
    rewrite (scan_digits_complete _ _ _ Htail) by by apply all_space_stops.
    apply skip_spaces_empty in Hws. by rewrite Hws.
Qed.

Lemma int_of_digits_raises (negative : bool) (body : string) (e : exn) :
  int_of_digits negative body = Raise e → e = ValueError.
Proof.
  unfold int_of_digits. repeat case_match; congruence.
Qed.

(** [int] raises nothing but [ValueError] on a string. *)
Lemma py_int_raises (s : string) (e : exn) :
  py_int s = Raise e → e = ValueError.
Proof.
  unfold py_int, int_of_signed. destruct (split_sign _).
  apply int_of_digits_raises.
Qed.

(** [int] accepts exactly the literals of the grammar, with their value. *)
Lemma py_int_spec (s : string) (z : Z) : py_int s = Ret z ↔ int_literal s z.
Proof.
  unfold py_int, int_of_signed, int_literal. split.
  - destruct (skip_spaces_split s) as (ws1 & Hs & Hws1).
    destruct (skip_spaces s) as [|c r] eqn:Hskip; [done|].
    unfold split_sign.
    destruct (decide (c = "-"%char)) as [->|Hm];
      [|destruct (decide (c = "+"%char)) as [->|Hp]];
      intros (c' & d & tail & ws2 & n & Hb & Hws2 & Hd & Htail & ->)
        %int_of_digits_spec;
      apply all_space_whitespace in Hws1, Hws2;
      apply digit_value_char in Hd.
    + exists ws1, "-", c', d, tail, ws2, n. rewrite Hs, Hb.
      split_and!; [done..|]. by right.
    + exists ws1, "+", c', d, tail, ws2, n. rewrite Hs, Hb.
      split_and!; [done..|]. left. by split; [right|].
    + exists ws1, "", c', d, tail, ws2, n. rewrite Hs, Hb.
      split_and!; [done..|]. left. by split; [left|].
  - intros (ws1 & sign & c & d & tail & ws2 & n & -> & Hws1 & Hws2 & Hd &
            Htail & Hsign).
    apply all_space_whitespace in Hws1, Hws2. apply digit_value_char in Hd.
    rewrite skip_spaces_app by done.
    assert (int_of_digits false (String c tail +:+ ws2) = Ret n) as Hpos.
    { apply int_of_digits_spec. by exists c, d, tail, ws2, n. }
    assert (int_of_digits true (String c tail +:+ ws2) = Ret (- n)) as Hneg.
    { apply int_of_digits_spec. by exists c, d, tail, ws2, n. }
    destruct (digit_not_sign _ _ Hd) as (Hm & Hp & _).
    destruct Hsign as [[[->| ->] ->]|[-> ->]].
    + rewrite app_empty_l, app_String.
      rewrite skip_spaces_head by by eapply digit_not_space.
      unfold split_sign. rewrite !decide_False by done.
      by rewrite <- app_String.
    + change ("+" +:+ ?x) with (String "+" x).
      rewrite skip_spaces_head by done.
      unfold split_sign. rewrite decide_False by done.
      by rewrite decide_True.
    + change ("-" +:+ ?x) with (String "-" x).
      rewrite skip_spaces_head by done.
      unfold split_sign. by rewrite decide_True.
Qed.

(** *** [int] on any [str] *)

Lemma digit_chars_fst (c : ascii) :
  c ∈ decimal_digits.*1 ↔ ∃ d, digit_char c d.
Proof.
  rewrite list_elem_of_fmap. split.
  - intros ([c' d] & -> & Hin). by exists d.
  - intros [d Hd]. by exists (c, d).
Qed.

Lemma count_digits_digit_count (s : string) : count_digits s = digit_count s.
Proof.
  induction s as [|c s IH]; simpl; [done|].
  destruct (digit_value c) as [d|] eqn:Hd.
  - rewrite decide_True; [by rewrite IH|].
    apply (proj2 (digit_chars_fst c)). exists d. by apply digit_value_char.
  - rewrite decide_False; [done|].
    intros [d Hin]%(proj1 (digit_chars_fst c)).
    apply digit_value_char in Hin. congruence.
Qed.

Lemma over_limit_within (py : interpreter) (n : nat) :
  over_limit py n = false ↔ within_limit py n.
Proof.
  unfold over_limit, within_limit.
  rewrite !andb_false_iff, !Nat.ltb_ge. lia.
Qed.

Lemma reads_as_to_ascii (py : interpreter) (s : list N) (a : string) :
  reads_as py s a → to_ascii py s = a.
Proof.
  induction 1 as [|ch c s a Hc _ IH]; simpl; [done|].
  destruct Hc as [[Hlt ->]|[(Hge & Hsp & ->)|(Hge & Hsp & d & Hd & ->)]].
  - apply N.ltb_lt in Hlt. by rewrite Hlt, IH.
  - apply N.ltb_ge in Hge. by rewrite Hge, Hsp, IH.
  - apply N.ltb_ge in Hge. by rewrite Hge, Hsp, Hd, IH.
Qed.

Lemma to_ascii_reads (py : interpreter) (s : list N) :
  str_forall (λ c, c ≠ "?"%char) (to_ascii py s) →
  reads_as py s (to_ascii py s).
Proof.
  induction s as [|ch s IH]; simpl; [constructor|].
  destruct (ch <? 128)%N eqn:Hlt.
  - intros [_ Hrest]. constructor; [|by apply IH].
    left. by apply N.ltb_lt in Hlt.
  - apply N.ltb_ge in Hlt. destruct (unicode_isspace py ch) eqn:Hsp.
    + intros [_ Hrest]. constructor; [|by apply IH]. right. by left.
    + destruct (unicode_todecimal py ch) as [d|] eqn:Hd.
      * intros [_ Hrest]. constructor; [|by apply IH]. right. right. eauto.
      * by intros [? _].
Qed.

Lemma str_forall_app (P : ascii → Prop) (a b : string) :
  str_forall P (a +:+ b) ↔ str_forall P a ∧ str_forall P b.
Proof.
  induction a as [|c a IH]; [simpl; rewrite app_empty_l; tauto|].
  rewrite app_String. simpl. rewrite IH. tauto.
Qed.

(** The characters of a literal are whitespace, signs, digits and
    underscores. *)
Lemma int_literal_chars (P : ascii → Prop) (a : string) (z : Z) :
  (∀ c, space_char c → P c) → (∀ c d, digit_char c d → P c) →
  P "+"%char → P "-"%char → P "_"%char →
  int_literal a z → str_forall P a.
Proof.
  intros Hspace Hdigit Hplus Hminus Hunder
    (ws1 & sign & c & d & tail & ws2 & n & -> & Hws1 & Hws2 & Hd & Htail & Hs).
  assert (∀ ws, whitespace ws → str_forall P ws) as Hws.
  { induction ws as [|x ws IH]; simpl; [done|]. intros [??]. auto. }
  assert (str_forall P tail) as Htl.
  { clear Hs Hd.
    induction Htail as [acc|acc x dx tail n Hx _ IH|acc x dx tail n Hx _ IH];
      simpl; [done| |]; split_and!; eauto. }
  rewrite !str_forall_app. split_and!; [by apply Hws| | |by apply Hws].
  - destruct Hs as [[[->| ->] _]|[-> _]]; simpl; auto.
  - simpl. eauto.
Qed.

Lemma to_ascii_code_points (py : interpreter) (a : string) :
  str_forall (λ c, (N_of_ascii c < 128)%N) a →
  to_ascii py (code_points a) = a.
Proof.
  induction a as [|c a IH]; simpl; [done|].
  intros [Hc Ha]. apply N.ltb_lt in Hc.
  by rewrite Hc, ascii_N_embedding, IH.
Qed.

Lemma int_literal_ascii (py : interpreter) (a : string) (z : Z) :
  int_literal a z → to_ascii py (code_points a) = a.
Proof.
  intros Hlit. apply to_ascii_code_points.
  apply (int_literal_chars _ a z); try done.
  - intros c Hc. unfold space_char, space_chars in Hc.
    repeat (apply elem_of_cons in Hc as [->|Hc]; [done|]).
    by apply elem_of_nil in Hc.
  - intros c d Hc. unfold digit_char, decimal_digits in Hc.
    repeat (apply elem_of_cons in Hc as [[= -> ->]|Hc]; [done|]).
    by apply elem_of_nil in Hc.
Qed.

Lemma int_literal_no_question (a : string) (z : Z) :
  int_literal a z → str_forall (λ c, c ≠ "?"%char) a.
Proof.
  apply int_literal_chars; try done.
  - intros c Hc. unfold space_char, space_chars in Hc.
    repeat (apply elem_of_cons in Hc as [->|Hc]; [done|]).
    by apply elem_of_nil in Hc.
  - intros c d Hc. unfold digit_char, decimal_digits in Hc.
    repeat (apply elem_of_cons in Hc as [[= -> ->]|Hc]; [done|]).
    by apply elem_of_nil in Hc.
Qed.

(** [int] raises nothing but [ValueError] on a [str]. *)
Lemma cpython_int_raises (py : interpreter) (s : list N) (e : exn) :
  cpython_int py s = Raise e → e = ValueError.
Proof.
  unfold cpython_int.
  destruct (py_int (to_ascii py s)) as [n|e'] eqn:Hs.
  - destruct (over_limit _ _); congruence.
  - intros [= <-]. by apply py_int_raises in Hs.
Qed.

(** [int] accepts exactly the accepted literals, with their value. *)
Lemma cpython_int_spec (py : interpreter) (s : list N) (z : Z) :
  cpython_int py s = Ret z ↔ accepted_literal py s z.
Proof.
  unfold cpython_int, accepted_literal. split.
  - destruct (py_int (to_ascii py s)) as [n|e] eqn:Hs; [|done].
    destruct (over_limit _ _) eqn:Hover; [done|]. intros [= <-].
    apply py_int_spec in Hs. exists (to_ascii py s). split_and!; [|done|].
    + apply to_ascii_reads. by apply (int_literal_no_question _ n).
    + rewrite <- count_digits_digit_count. by apply over_limit_within.
  - intros (a & Hreads & Hlit & Hlim).
    rewrite (reads_as_to_ascii _ _ _ Hreads).
    apply py_int_spec in Hlit. rewrite Hlit.
    rewrite <- count_digits_digit_count in Hlim.
    apply over_limit_within in Hlim. by rewrite Hlim.
Qed.

Lemma validate_patient_id_with_cases {S : Type} (int_ : S → result Z) (s : S) :
  (∀ e, int_ s = Raise e → e = ValueError) →
  match int_ s with
  | Ret z => validate_patient_id_with int_ s = Ret (IsInt z)
  | Raise _ => validate_patient_id_with int_ s = Ret NotInt
  end.
Proof.
  intros Hraise. unfold validate_patient_id_with.
  destruct (int_ s) as [z|e]; [done|]. by rewrite (Hraise e).
Qed.

(** On an ASCII literal within the limit on digits, [int] is the parse of
    the string itself, whatever the interpreter. *)
Lemma cpython_int_ascii (py : interpreter) (a : string) (z : Z) :
  py_int a = Ret z → within_limit py (digit_count a) →
  cpython_int py (code_points a) = Ret z.
Proof.
  intros Hs Hlim. unfold cpython_int.
  rewrite (int_literal_ascii py a z) by by apply py_int_spec.
  rewrite Hs. rewrite <- count_digits_digit_count in Hlim.
  apply over_limit_within in Hlim. by rewrite Hlim.
Qed.

(** On an ASCII path segment of at most 640 digits the interpreter does
    not matter: [int] is the parse of the segment, and the function and
    the route are [validate_patient_id] and [get_get_results]. *)
Lemma cpython_int_ascii_text (py : interpreter) (a : string) :
  str_forall (λ c, (N_of_ascii c < 128)%N) a → (digit_count a ≤ 640)%nat →
  cpython_int py (code_points a) = py_int a ∧
  validate_patient_id_with (cpython_int py) (code_points a)
  = validate_patient_id a ∧
  get_get_results_with (cpython_int py) (code_points a) = get_get_results a.
Proof.
  intros Hascii Hlen.
  assert (cpython_int py (code_points a) = py_int a) as Heq.
  { unfold cpython_int. rewrite to_ascii_code_points by done.
    assert (over_limit py (count_digits a) = false) as ->.
    { apply over_limit_within. rewrite count_digits_digit_count. by left. }
    by destruct (py_int a). }
  unfold get_get_results, get_get_results_with, validate_patient_id,
    validate_patient_id_with.
  by rewrite Heq.
Qed.

(** C8. For every interpreter and every string, [validate_patient_id]
    returns an integer exactly when the string is a base-10 integer
    literal (in ASCII or any other digits and whitespace) whose digits are
    within the interpreter's limit, and that integer is the literal's
    value; it returns [False] for every other string and never raises.
    Every integer whose decimal rendering is within the limit is returned
    from that rendering. *)
Theorem validate_patient_id_spec (py : interpreter) :
  (∀ s z, validate_patient_id_with (cpython_int py) s = Ret (IsInt z) ↔
          accepted_literal py s z) ∧
  (∀ s, validate_patient_id_with (cpython_int py) s = Ret NotInt ↔
        ¬ ∃ z, accepted_literal py s z) ∧
  (∀ s, ∃ r, validate_patient_id_with (cpython_int py) s = Ret r) ∧
  (∀ z, within_limit py (digit_count (pretty z)) →
        validate_patient_id_with (cpython_int py) (code_points (pretty z))
        = Ret (IsInt z)) ∧
  validate_patient_id_with (cpython_int py) (code_points "42")
    = Ret (IsInt 42) ∧
  validate_patient_id_with (cpython_int py) (code_points "abc") = Ret NotInt ∧
  validate_patient_id_with (cpython_int py) (code_points "4.2") = Ret NotInt.
Proof.
  assert (∀ s, match cpython_int py s with
               | Ret z => validate_patient_id_with (cpython_int py) s
                          = Ret (IsInt z)
               | Raise _ => validate_patient_id_with (cpython_int py) s
                            = Ret NotInt
               end) as Hcases.
  { intros s. apply validate_patient_id_with_cases, cpython_int_raises. }
  split_and!; try reflexivity.
  - intros s z. rewrite <- cpython_int_spec. specialize (Hcases s).
    destruct (cpython_int py s) as [z'|e]; rewrite Hcases; split; congruence.
  - intros s. specialize (Hcases s). split.
    + intros Hnot [z Hz]. apply cpython_int_spec in Hz.
      rewrite Hz in Hcases. congruence.
    + intros Hnone. destruct (cpython_int py s) as [z|e] eqn:Hs; [|done].
      destruct Hnone. exists z. by apply cpython_int_spec.
  - intros s. specialize (Hcases s). destruct (cpython_int py s); eauto.
  - intros z Hlim. unfold validate_patient_id_with.
    by rewrite (cpython_int_ascii py (pretty z) z (py_int_pretty z) Hlim).
Qed.

Lemma validate_patient_id_spec_witness :
  within_limit default_limit (digit_count (pretty 42)) ∧
  validate_patient_id_with (cpython_int default_limit) (code_points (pretty 42))
  = Ret (IsInt 42).
Proof.
  assert (within_limit default_limit (digit_count (pretty 42))) as Hlim
    by (left; vm_compute; lia).
  split; [done|].
  destruct (validate_patient_id_spec default_limit) as (_ & _ & _ & Hpretty & _).
  exact (Hpretty 42 Hlim).
Defined.

(** Under the default limit of 4300 digits the string of 4301 nines is an
    integer literal, of value [10 ^ 4301 - 1], and [validate_patient_id]
    returns [False] for it. *)
Lemma validate_patient_id_digit_limit :
  int_literal (str_replicate 4301 "9") (10 ^ 4301 - 1) ∧
  validate_patient_id_with (cpython_int default_limit)
    (code_points (str_replicate 4301 "9")) = Ret NotInt.
Proof.
  split.
  - apply py_int_spec. vm_compute. reflexivity.
  - vm_compute. reflexivity.
Qed.

(** ** The routes and the store *)

Ltac io_unfold :=
  unfold mbind, mret, io_mbind, io_mret, io_bind, io_ret, io_lift, io_raise.

Lemma get_patient_eq (m : Z) (db : database) :
  get_patient m db =
  (Ret match db !! m with
       | Some p => IsPatient p
       | None => NoPatient
       end, db).
Proof.
  unfold get_patient, get_patient_from_db. io_unfold.
  by destruct (db !! m).
Qed.

Lemma add_test_to_patient_eq (t : new_test) (db : database) :
  add_test_to_patient t db =
  match db !! nt_id t with
  | Some p =>
      (Ret CheckTrue,
       <[mrn p := add_test_result p (nt_test_name t) (nt_test_result t)]> db)
  | None => (Ret (CheckMsg "Patient not found"), db)
  end.
Proof.
  unfold add_test_to_patient. unfold mbind at 1, io_mbind, io_bind.
  rewrite get_patient_eq. by destruct (db !! nt_id t).
Qed.

Lemma validated_new_test (t : new_test) :
  Validator.validate_post_input (new_test_dict t)
    ["id"; "test_name"; "test_result"] [Tint; Tstr; Tint] = CheckTrue ∧
  as_new_test (new_test_dict t) = Some t.
Proof. by destruct t. Qed.

Lemma validated_new_patient (n : new_patient) :
  Validator.validate_post_input (new_patient_dict n)
    ["name"; "id"; "blood_type"] [Tstr; Tint; Tstr] = CheckTrue ∧
  as_new_patient (new_patient_dict n) = Some n.
Proof. by destruct n. Qed.

(** A dictionary that passes the validation of a route has the typed
    entries the route goes on to read. *)
Lemma validated_as_new_patient (in_data : gmap string json) :
  Validator.validate_post_input in_data
    ["name"; "id"; "blood_type"] [Tstr; Tint; Tstr] = CheckTrue →
  is_Some (as_new_patient in_data).
Proof.
  unfold Validator.validate_post_input, as_new_patient; simpl.
  destruct (in_data !! "name") as [[]|]; simpl; try done.
  destruct (in_data !! "id") as [[]|]; simpl; try done.
  destruct (in_data !! "blood_type") as [[]|]; simpl; try done.
Qed.

Lemma validated_as_new_test (in_data : gmap string json) :
  Validator.validate_post_input in_data
    ["id"; "test_name"; "test_result"] [Tint; Tstr; Tint] = CheckTrue →
  is_Some (as_new_test in_data).
Proof.
  unfold Validator.validate_post_input, as_new_test; simpl.
  destruct (in_data !! "id") as [[]|]; simpl; try done.
  destruct (in_data !! "test_name") as [[]|]; simpl; try done.
  destruct (in_data !! "test_result") as [[]|]; simpl; try done.
Qed.

(** C4. When the store holds no patient under the given medical record
    number, [get_patient] returns [False], [add_test_to_patient] returns
    the not-found message, the [/add_test] route answers 400 with it, and
    each leaves the store exactly as it was. *)
Theorem add_test_to_patient_not_found (t : new_test) (db : database) :
  db !! nt_id t = None →
  get_patient (nt_id t) db = (Ret NoPatient, db) ∧
  add_test_to_patient t db = (Ret (CheckMsg "Patient not found"), db) ∧
  post_add_test (new_test_dict t) db = (Ret (Text "Patient not found", 400), db).
Proof.
  intros Hnone. split_and!.
  - by rewrite get_patient_eq, Hnone.
  - by rewrite add_test_to_patient_eq, Hnone.
  - unfold post_add_test.
    destruct (validated_new_test t) as [-> ->].
    unfold mbind, io_mbind, io_bind.
    by rewrite add_test_to_patient_eq, Hnone.
Qed.

Lemma add_test_to_patient_not_found_witness :
  let t := mkNewTest 999 "x" 1 in
  (∅ : database) !! nt_id t = None ∧
  get_patient 999 ∅ = (Ret NoPatient, ∅) ∧
  add_test_to_patient t ∅ = (Ret (CheckMsg "Patient not found"), ∅) ∧
  post_add_test (new_test_dict t) ∅ = (Ret (Text "Patient not found", 400), ∅).
Proof.
  intros t. split; [reflexivity|].
  apply (add_test_to_patient_not_found t ∅). reflexivity.
Defined.

Lemma with_tests_appended_nil (p : Patient) : with_tests_appended p [] = p.
Proof. destruct p. unfold with_tests_appended; simpl. by rewrite app_nil_r. Qed.

Lemma with_tests_appended_cons (p : Patient) n r results :
  with_tests_appended (add_test_result p n r) results
  = with_tests_appended p ((n, r) :: results).
Proof.
  unfold with_tests_appended, add_test_result; simpl.
  by rewrite <- app_assoc.
Qed.

Lemma add_tests_to_patient_eq (results : list (string * Z)) :
  ∀ (m : Z) (p : Patient) (db : database),
    db !! m = Some p → mrn p = m →
    add_tests_to_patient m results db =
    (Ret (replicate (length results) CheckTrue),
     <[m := with_tests_appended p results]> db).
Proof.
  induction results as [|[n r] rest IH]; intros m p db Hp Hm; simpl.
  - rewrite with_tests_appended_nil. by rewrite insert_id.
  - unfold mbind at 1, io_mbind, io_bind.
    rewrite add_test_to_patient_eq; simpl. rewrite Hp, Hm.
    unfold mbind at 1, io_mbind, io_bind.
    rewrite (IH m (add_test_result p n r)); [| by rewrite lookup_insert_eq | done].
    rewrite insert_insert_eq, with_tests_appended_cons. done.
Qed.

Lemma get_get_results_found (m : Z) (p : Patient) (db : database) :
  db !! m = Some p →
  get_get_results (pretty m) db = (Ret (TestResults (tests p), 200), db).
Proof.
  intros Hp.
  unfold get_get_results, get_get_results_with, validate_patient_id_with.
  rewrite py_int_pretty. unfold mbind at 1, io_mbind, io_bind, io_lift.
  unfold mbind at 1, io_mbind, io_bind.
  by rewrite get_patient_eq, Hp.
Qed.

(** C5. For a patient in the store (kept, as every document is, under its
    own medical record number), each [add_test_to_patient] call
    succeeds and replaces the document by the patient with the pair
    [(test_name, test_result)] appended at the end of its tests; after any
    sequence of calls the tests are the earlier ones followed by the new
    pairs in call order, which is what [/get_results] returns, and the
    documents of other patients are untouched. *)
Theorem add_test_to_patient_appends (m : Z) (p : Patient) (db : database) :
  db !! m = Some p → mrn p = m →
  (∀ n r,
      add_test_to_patient (mkNewTest m n r) db
        = (Ret CheckTrue, <[m := add_test_result p n r]> db) ∧
      tests (add_test_result p n r) = (tests p ++ [(n, r)])%list) ∧
  (∀ results,
      let out := add_tests_to_patient m results db in
      out.1 = Ret (replicate (length results) CheckTrue) ∧
      out.2 !! m = Some (with_tests_appended p results) ∧
      get_get_results (pretty m) out.2
        = (Ret (TestResults (tests p ++ results)%list, 200), out.2) ∧
      (∀ m', m' ≠ m → out.2 !! m' = db !! m')).
Proof.
  intros Hp Hm. split.
  - intros n r. split; [|done].
    rewrite add_test_to_patient_eq; simpl. by rewrite Hp, Hm.
  - intros results out. subst out.
    rewrite (add_tests_to_patient_eq results m p db Hp Hm); simpl.
    split; [done|]. split; [apply lookup_insert_eq|]. split.
    + by rewrite (get_get_results_found m (with_tests_appended p results))
        by apply lookup_insert_eq.
    + intros m' Hne. by apply lookup_insert_ne.
Qed.

Lemma add_test_to_patient_appends_witness :
  let ann := Patient_init "Ann" "Ables" 1 None None in
  let db : database := {[ 1 := ann ]} in
  let out := add_tests_to_patient 1 [("glucose", 90); ("cholesterol", 180)] db in
  db !! 1 = Some ann ∧ mrn ann = 1 ∧
  get_get_results "1" out.2
    = (Ret (TestResults [("glucose", 90); ("cholesterol", 180)], 200), out.2).
Proof.
  intros ann db out.
  assert (db !! 1 = Some ann) as Hp by reflexivity.
  assert (mrn ann = 1) as Hm by reflexivity.
  split_and!; [done..|].
  destruct (add_test_to_patient_appends 1 ann db Hp Hm) as [_ Hseq].
  destruct (Hseq [("glucose", 90); ("cholesterol", 180)]) as (_ & _ & Hget & _).
  exact Hget.
Defined.

(** The constructor call of [add_patient_to_db] passes the keyword
    [blood_type], which [Patient.__init__] does not take. *)
Lemma blood_type_keyword_rejected :
  check_keywords Patient_init_params ["blood_type"] = Raise TypeError.
Proof. reflexivity. Qed.

Lemma add_patient_to_db_eq (n : new_patient) (db : database) :
  add_patient_to_db n db =
  match str_split " " (np_name n) with
  | [_; _] => (Raise TypeError, db)
  | _ => (Raise ValueError, db)
  end.
Proof.
  unfold add_patient_to_db. io_unfold. unfold unpack2.
  destruct (str_split " " (np_name n)) as [|a [|b [|c l]]]; done.
Qed.

(** [add_patient_to_db] never stores a patient: whatever the request, it
    raises and leaves the store as it was. *)
Lemma add_patient_to_db_raises (n : new_patient) (db : database) :
  ∃ e, add_patient_to_db n db = (Raise e, db).
Proof.
  rewrite add_patient_to_db_eq.
  destruct (str_split " " (np_name n)) as [|a [|b [|c l]]]; eauto.
Qed.

(** C1. Registering [{"name": "Ann Ables", "id": 1, "blood_type": "A+"}]
    raises [TypeError] at the constructor call, in [add_patient_to_db] and
    in the [/new_patient] route alike; nothing is saved, so on a store that
    was empty [get_patient(1)] afterwards returns [False]. *)
Theorem add_patient_to_db_ann_ables :
  add_patient_to_db ann_ables ∅ = (Raise TypeError, ∅) ∧
  post_new_patient (new_patient_dict ann_ables) ∅ = (Raise TypeError, ∅) ∧
  get_patient 1 (add_patient_to_db ann_ables ∅).2 = (Ret NoPatient, ∅).
Proof. split_and!; reflexivity. Qed.

(** C2. A registration whose name has no space passes both validators of
    the [/new_patient] route, and the route then raises [ValueError] from
    the unpacking in [add_patient_to_db] instead of answering 400. *)
Theorem post_new_patient_one_token_name :
  let in_data : gmap string json :=
    {[ "name" := JStr "Madonna"; "id" := JInt 2; "blood_type" := JStr "O+" ]} in
  Validator.validate_post_input in_data
    ["name"; "id"; "blood_type"] [Tstr; Tint; Tstr] = CheckTrue ∧
  Validator.validate_blood_type "O+" = CheckTrue ∧
  add_patient_to_db (mkNewPatient "Madonna" 2 "O+") ∅ = (Raise ValueError, ∅) ∧
  post_new_patient in_data ∅ = (Raise ValueError, ∅).
Proof. split_and!; reflexivity. Qed.

(** * Further properties of the code *)

(** ** [validate_post_input] on lists of unequal length and on
    concatenated lists *)

Lemma loop_app (in_data : gmap string json) (ps qs : list (string * pytype)) :
  Validator.validate_post_input_loop in_data (ps ++ qs) =
  match Validator.validate_post_input_loop in_data ps with
  | CheckTrue => Validator.validate_post_input_loop in_data qs
  | CheckMsg msg => CheckMsg msg
  end.
Proof.
  induction ps as [|[k t] ps IH]; simpl; [done|].
  destruct (in_data !! k) as [v|]; [|done].
  by destruct (decide (type_of v = t)).
Qed.

(** X1. [zip] stops at the shorter list, so [validate_post_input] checks
    only as many keys as there are expected types (and the reverse): the
    surplus of the longer list is never examined, and with either list
    empty every input passes. *)
Theorem validate_post_input_truncates
    (in_data : gmap string json) (keys : list string) (types : list pytype) :
  Validator.validate_post_input in_data keys types
    = Validator.validate_post_input in_data
        (take (length types) keys) (take (length keys) types) ∧
  (∀ more_keys more_types,
      Validator.validate_post_input in_data
        (take (length types) keys ++ more_keys) (take (length keys) types)
      = Validator.validate_post_input in_data keys types ∧
      Validator.validate_post_input in_data
        (take (length types) keys) (take (length keys) types ++ more_types)
      = Validator.validate_post_input in_data keys types) ∧
  Validator.validate_post_input in_data keys [] = CheckTrue ∧
  Validator.validate_post_input in_data [] types = CheckTrue.
Proof.
  unfold Validator.validate_post_input.
  assert (zip_with pair (take (length types) keys) (take (length keys) types)
          = zip_with pair keys types) as Hboth.
  { rewrite zip_with_take_r' by (rewrite length_take; lia).
    apply zip_with_take_l. }
  split_and!.
  - by rewrite Hboth.
  - intros more_keys more_types. split.
    + rewrite zip_with_app_l.
      rewrite drop_ge by (rewrite !length_take; lia).
      rewrite zip_with_nil_r, app_nil_r.
      rewrite (take_ge (take _ types)) by (rewrite !length_take; lia).
      by rewrite Hboth.
    + rewrite zip_with_app_r.
      rewrite drop_ge by (rewrite !length_take; lia).
      rewrite zip_with_nil_l, app_nil_r.
      rewrite (take_ge (take _ keys)) by (rewrite !length_take; lia).
      by rewrite Hboth.
  - by rewrite zip_with_nil_r.
  - done.
Qed.

(** X2. Validation of concatenated expectations is validation of the first
    part followed by validation of the second: a failure in the first part
    is the one reported, and otherwise the result is that of the second
    part. The first part must pair each key with a type. *)
Theorem validate_post_input_app
    (in_data : gmap string json) (keys1 keys2 : list string)
    (types1 types2 : list pytype) :
  length keys1 = length types1 →
  Validator.validate_post_input in_data (keys1 ++ keys2) (types1 ++ types2) =
  match Validator.validate_post_input in_data keys1 types1 with
  | CheckTrue => Validator.validate_post_input in_data keys2 types2
  | CheckMsg msg => CheckMsg msg
  end.
Proof.
  intros Hlen. unfold Validator.validate_post_input.
  rewrite zip_with_app by done. apply loop_app.
Qed.

Lemma validate_post_input_app_witness :
  let in_data : gmap string json :=
    {[ "id" := JInt 1; "test_name" := JFloat (S754_zero false) ]} in
  length ["id"] = length [Tint] ∧
  Validator.validate_post_input in_data
    (["id"] ++ ["test_name"; "test_result"]) ([Tint] ++ [Tstr; Tint])
  = CheckMsg "The value for key test_name is not the expected type of <class 'str'>.".
Proof.
  intros in_data. split; [reflexivity|].
  rewrite (validate_post_input_app in_data ["id"] ["test_name"; "test_result"]
             [Tint] [Tstr; Tint]) by reflexivity.
  reflexivity.
Defined.

(** ** [Patient.__eq__], [__str__], [is_minor] and [create_output] *)

Lemma Patient_eq_fields (p q : Patient) :
  Patient_eq p (PatientObj q) = true ↔
  (first_name p, last_name p, mrn p, age p)
  = (first_name q, last_name q, mrn q, age q).
Proof.
  unfold Patient_eq. split.
  - destruct (_ && _) eqn:H; [|done]. intros _.
    repeat (apply andb_true_iff in H as [H ?]).
    repeat match goal with
           | H : bool_decide _ = true |- _ => apply bool_decide_eq_true in H
           end.
    congruence.
  - intros [= -> -> -> ->]. by rewrite !bool_decide_eq_true_2.
Qed.

(** X3. On patients, [__eq__] is an equivalence relation: reflexive,
    symmetric and transitive; against anything that is not a [Patient] it
    is [False]. *)
Theorem Patient_eq_equivalence :
  (∀ p, Patient_eq p (PatientObj p) = true) ∧
  (∀ p q, Patient_eq p (PatientObj q) = Patient_eq q (PatientObj p)) ∧
  (∀ p q r, Patient_eq p (PatientObj q) = true ∧
            Patient_eq q (PatientObj r) = true →
            Patient_eq p (PatientObj r) = true) ∧
  (∀ p v, Patient_eq p (JsonObj v) = false).
Proof.
  split_and!.
  - intros p. by apply Patient_eq_fields.
  - intros p q.
    destruct (Patient_eq p (PatientObj q)) eqn:Hpq;
      destruct (Patient_eq q (PatientObj p)) eqn:Hqp; try done.
    + apply Patient_eq_fields in Hpq. symmetry in Hpq.
      apply Patient_eq_fields in Hpq. congruence.
    + apply Patient_eq_fields in Hqp. symmetry in Hqp.
      apply Patient_eq_fields in Hqp. congruence.
  - intros p q r [Hpq Hqr]. apply Patient_eq_fields.
    apply Patient_eq_fields in Hpq, Hqr. congruence.
  - done.
Qed.

(** X4. Patients that are equal under [__eq__] have the same [__str__]
    and the same [is_minor] result and printed notice; adding a test
    result gives a patient equal to the one before. *)
Theorem Patient_eq_respected (p q : Patient) :
  Patient_eq p (PatientObj q) = true →
  Patient_str p = Patient_str q ∧
  is_minor p = is_minor q ∧
  (∀ n r, Patient_eq p (PatientObj (add_test_result q n r)) = true).
Proof.
  intros [= Hf Hl Hm Ha]%Patient_eq_fields. split_and!.
  - unfold Patient_str. by rewrite Hf, Hl, Hm.
  - unfold is_minor. by rewrite Ha.
  - intros n r. apply Patient_eq_fields. simpl. congruence.
Qed.

Lemma Patient_eq_respected_witness :
  let p := mkPatient "Ann" "Ables" 1 17 [] in
  let q := mkPatient "Ann" "Ables" 1 17 [("glucose", 90)] in
  Patient_eq p (PatientObj q) = true ∧
  Patient_str p = Patient_str q ∧ is_minor p = is_minor q.
Proof.
  intros p q. split; [reflexivity|].
  destruct (Patient_eq_respected p q) as (Hs & Hm & _); [reflexivity|].
  by split.
Defined.

(** X5. [create_output] prints the notice of [is_minor] exactly when the
    age is 0, and renders the status as [Minor] exactly when the age is
    below 18 and not 0 (negative ages included), as [Adult] otherwise;
    the other lines carry the names, the record number and the tests. *)
Theorem create_output_status
    (repr_tests : list (string * Z) → string) (p : Patient) :
  create_output repr_tests p =
    (if decide (age p = 0) then ["Didn't work"] else [],
     "Name: " +:+ first_name p +:+ " " +:+ last_name p +:+ newline +:+
     "MRN: " +:+ pretty (mrn p) +:+ newline +:+
     "Status: " +:+
       (if decide (age p < 18 ∧ age p ≠ 0) then "Minor" else "Adult") +:+
       newline +:+
     "Test Results: " +:+ repr_tests (tests p) +:+ newline).
Proof.
  unfold create_output, is_minor.
  destruct (decide (age p = 0)) as [H0|H0]; simpl.
  - rewrite decide_False by tauto.
    change ("" +:+ ?s) with s. by rewrite !str_app_assoc.
  - destruct (decide (age p < 18)) as [H18|H18]; simpl.
    + rewrite decide_True by done.
      change ("" +:+ ?s) with s. by rewrite !str_app_assoc.
    + rewrite decide_False by tauto.
      change ("" +:+ ?s) with s. by rewrite !str_app_assoc.
Qed.

(** ** Splitting the name, and the [/new_patient] route *)

Lemma str_split_length (sep : ascii) (s : string) :
  length (str_split sep s) = S (count_char sep s).
Proof.
  induction s as [|c s IH]; simpl; [done|].
  destruct (decide (c = sep)); simpl; [by rewrite IH|].
  by destruct (str_split sep s).
Qed.

Lemma str_split_join (sep : ascii) (s : string) :
  String.concat (String sep "") (str_split sep s) = s.
Proof.
  induction s as [|c s IH]; simpl; [done|].
  pose proof (str_split_length sep s) as Hlen.
  destruct (str_split sep s) as [|f fs]; [done|].
  destruct (decide (c = sep)) as [->|Hc].
  - change (String sep (String.concat (String sep "") (f :: fs)) = String sep s).
    by rewrite IH.
  - destruct fs as [|g fs]; simpl in *; [by rewrite IH|].
    rewrite app_String. by rewrite IH.
Qed.

Lemma str_split_fields (sep : ascii) (s : string) :
  Forall (λ f, occurs sep f = false) (str_split sep s).
Proof.
  induction s as [|c s IH]; simpl; [by repeat constructor|].
  destruct (decide (c = sep)) as [->|Hc]; [by constructor|].
  destruct (str_split sep s) as [|f fs]; simpl.
  - repeat constructor. simpl. by rewrite bool_decide_eq_false_2.
  - apply Forall_cons in IH as [Hf Hfs]. constructor; [|done].
    simpl. by rewrite bool_decide_eq_false_2, Hf.
Qed.

(** X6. Splitting on a separator character is undone by joining with it;
    no field contains the separator; and there is one field more than
    there are separators in the string, so consecutive, leading and
    trailing separators give empty fields. *)
Theorem str_split_spec (sep : ascii) (s : string) :
  String.concat (String sep "") (str_split sep s) = s ∧
  Forall (λ field, occurs sep field = false) (str_split sep s) ∧
  length (str_split sep s) = S (count_char sep s).
Proof.
  split_and!;
    [apply str_split_join | apply str_split_fields | apply str_split_length].
Qed.

Lemma add_patient_to_db_by_spaces (in_data : new_patient) (db : database) :
  add_patient_to_db in_data db =
  (Raise (if decide (count_char " " (np_name in_data) = 1%nat)
          then TypeError else ValueError), db).
Proof.
  rewrite add_patient_to_db_eq.
  pose proof (str_split_length " " (np_name in_data)) as Hlen.
  destruct (str_split " " (np_name in_data)) as [|a [|b [|c l]]];
    simpl in Hlen; case_decide; (done || lia).
Qed.

(** X7. [add_patient_to_db] raises for every request and stores nothing:
    [ValueError] from the unpacking unless the name contains exactly one
    space, and [TypeError] from the constructor call when it does; a
    lookup of the requested record number afterwards finds what it found
    before. *)
Theorem add_patient_to_db_exception (in_data : new_patient) (db : database) :
  add_patient_to_db in_data db =
  (Raise (if decide (count_char " " (np_name in_data) = 1%nat)
          then TypeError else ValueError), db) ∧
  get_patient (np_id in_data) (add_patient_to_db in_data db).2
  = get_patient (np_id in_data) db.
Proof.
  pose proof (add_patient_to_db_by_spaces in_data db) as Hraise.
  split; [done|]. by rewrite Hraise.
Qed.

Lemma post_new_patient_cases (in_data : gmap string json) (db : database) :
  match Validator.validate_post_input in_data
          ["name"; "id"; "blood_type"] [Tstr; Tint; Tstr] with
  | CheckMsg msg => post_new_patient in_data db = (Ret (Text msg, 400), db)
  | CheckTrue =>
      ∃ name id blood_type,
        in_data !! "name" = Some (JStr name) ∧
        in_data !! "id" = Some (JInt id) ∧
        in_data !! "blood_type" = Some (JStr blood_type) ∧
        match Validator.validate_blood_type blood_type with
        | CheckMsg msg => post_new_patient in_data db = (Ret (Text msg, 400), db)
        | CheckTrue =>
            post_new_patient in_data db =
            (Raise (if decide (count_char " " name = 1%nat)
                    then TypeError else ValueError), db)
        end
  end.
Proof.
  unfold post_new_patient.
  destruct (Validator.validate_post_input _ _ _) eqn:Hv; [|done].
  unfold Validator.validate_post_input in Hv; simpl in Hv.
  unfold as_new_patient.
  destruct (in_data !! "name") as [[| | | |name| |]|]; try done.
  destruct (in_data !! "id") as [[| |id| | | |]|]; try done.
  destruct (in_data !! "blood_type") as [[| | | |bt| |]|]; try done.
  exists name, id, bt. split_and!; [done..|]. simpl.
  destruct (Validator.validate_blood_type bt); [|done].
  unfold mbind, io_mbind, io_bind.
  by rewrite add_patient_to_db_by_spaces.
Qed.

Lemma validate_post_input_json_dict (d : gmap string json)
    (keys : list string) (types : list pytype) :
  validate_post_input_json (JDict d) keys types
  = Ret (Validator.validate_post_input d keys types).
Proof.
  unfold validate_post_input_json, Validator.validate_post_input.
  induction (zip keys types) as [|[k t] pairs IH]; simpl; [done|].
  destruct (d !! k) as [v|] eqn:Hk.
  - rewrite bool_decide_eq_true_2 by eauto.
    destruct (decide (type_of v = t)); [by rewrite IH | done].
  - rewrite bool_decide_eq_false_2; [done|]. by intros [??].
Qed.

Lemma validate_post_input_json_other (in_data : json) (k : string)
    (t : pytype) (keys : list string) (types : list pytype) :
  match in_data with
  | JDict _ => True
  | _ =>
      validate_post_input_json in_data (k :: keys) (t :: types) =
      match py_contains k in_data with
      | Ret false => Ret (CheckMsg ("Key " +:+ k +:+ " is not found in input."))
      | _ => Raise TypeError
      end
  end.
Proof.
  destruct in_data as [| | | |str|l|d]; try done;
    unfold validate_post_input_json; simpl; by case_match.
Qed.

(** X13. On a JSON object, [validate_post_input] over any JSON value is
    the validation of the dictionary. On any other JSON value, with at
    least one expected key, it never returns [True]: it returns the
    missing-key message for the first key when that key is not an element
    of the list or a substring of the string, and raises [TypeError]
    otherwise (a number, a boolean or [null] has no [in]; a list or a
    string has no [str] index). *)
Theorem validate_post_input_json_outcomes (in_data : json) (k : string)
    (t : pytype) (keys : list string) (types : list pytype) :
  match in_data with
  | JDict d =>
      validate_post_input_json in_data (k :: keys) (t :: types)
      = Ret (Validator.validate_post_input d (k :: keys) (t :: types))
  | JNull | JBool _ | JInt _ | JFloat _ =>
      validate_post_input_json in_data (k :: keys) (t :: types)
      = Raise TypeError
  | JStr s =>
      validate_post_input_json in_data (k :: keys) (t :: types)
      = if is_infix k s then Raise TypeError
        else Ret (CheckMsg ("Key " +:+ k +:+ " is not found in input."))
  | JList l =>
      validate_post_input_json in_data (k :: keys) (t :: types)
      = if existsb (λ x, match x with
                         | JStr s => bool_decide (s = k)
                         | _ => false
                         end) l
        then Raise TypeError
        else Ret (CheckMsg ("Key " +:+ k +:+ " is not found in input."))
  end.
Proof.
  pose proof (validate_post_input_json_other in_data k t keys types) as Hother.
  destruct in_data as [| | | |str|l|d]; try exact Hother.
  apply validate_post_input_json_dict.
Qed.

Lemma post_new_patient_json_other (in_data : json) (db : database) :
  match in_data with
  | JDict _ => True
  | _ =>
      post_new_patient_json in_data db =
      match py_contains "name" in_data with
      | Ret false => (Ret (Text "Key name is not found in input.", 400), db)
      | _ => (Raise TypeError, db)
      end
  end.
Proof.
  pose proof (validate_post_input_json_other in_data "name" Tstr
                ["id"; "blood_type"] [Tint; Tstr]) as Hv.
  destruct in_data as [| | | |str|l|d]; try done;
    unfold post_new_patient_json; unfold mbind, io_mbind, io_bind, io_lift;
    rewrite Hv; by repeat case_match.
Qed.

(** X8. The [/new_patient] route never changes the store and answers no
    body with 200. An object failing [validate_post_input] is answered 400
    with that message, before the blood type is looked at; a well-shaped
    object with a blood type outside the eight is answered 400 with the
    blood-type message; an object that passes both checks makes the route
    raise. A body that is not an object is answered 400 with the
    missing-key message for [name] when it is a list without the element
    [name] or a string without that substring, and makes the route raise
    [TypeError] otherwise. *)
Theorem post_new_patient_outcomes (in_data : json) (db : database) :
  (post_new_patient_json in_data db).2 = db ∧
  (∀ b, (post_new_patient_json in_data db).1 ≠ Ret (b, 200)) ∧
  match in_data with
  | JDict d =>
      match Validator.validate_post_input d
              ["name"; "id"; "blood_type"] [Tstr; Tint; Tstr] with
      | CheckMsg msg =>
          post_new_patient_json in_data db = (Ret (Text msg, 400), db)
      | CheckTrue =>
          ∃ name id blood_type,
            d !! "name" = Some (JStr name) ∧
            d !! "id" = Some (JInt id) ∧
            d !! "blood_type" = Some (JStr blood_type) ∧
            match Validator.validate_blood_type blood_type with
            | CheckMsg msg =>
                post_new_patient_json in_data db = (Ret (Text msg, 400), db)
            | CheckTrue =>
                post_new_patient_json in_data db =
                (Raise (if decide (count_char " " name = 1%nat)
                        then TypeError else ValueError), db)
            end
      end
  | _ =>
      post_new_patient_json in_data db =
      match py_contains "name" in_data with
      | Ret false => (Ret (Text "Key name is not found in input.", 400), db)
      | _ => (Raise TypeError, db)
      end
  end.
Proof.
  pose proof (post_new_patient_json_other in_data db) as Hother.
  assert (∀ d, in_data = JDict d →
               (post_new_patient d db).2 = db ∧
               ∀ b, (post_new_patient d db).1 ≠ Ret (b, 200)) as Hdict.
  { intros d _. pose proof (post_new_patient_cases d db) as Hcases.
    destruct (Validator.validate_post_input _ _ _).
    - destruct Hcases as (n & i & bt & _ & _ & _ & Hcases).
      destruct (Validator.validate_blood_type bt); by rewrite Hcases.
    - by rewrite Hcases. }
  destruct in_data as [| | | |str|l|d];
    try (rewrite Hother; simpl; split_and!; by repeat case_match).
  destruct (Hdict d eq_refl) as [Hstore Hno]. split_and!; [done..|].
  apply post_new_patient_cases.
Qed.

(** ** The [/add_test] and [/get_results] routes *)

Lemma post_add_test_cases (in_data : gmap string json) (db : database) :
  match Validator.validate_post_input in_data
          ["id"; "test_name"; "test_result"] [Tint; Tstr; Tint] with
  | CheckMsg msg => post_add_test in_data db = (Ret (Text msg, 400), db)
  | CheckTrue =>
      ∃ id test_name test_result,
        in_data !! "id" = Some (JInt id) ∧
        in_data !! "test_name" = Some (JStr test_name) ∧
        in_data !! "test_result" = Some (JInt test_result) ∧
        post_add_test in_data db =
        match db !! id with
        | None => (Ret (Text "Patient not found", 400), db)
        | Some p =>
            (Ret (Text "Test added", 200),
             <[mrn p := add_test_result p test_name test_result]> db)
        end
  end.
Proof.
  unfold post_add_test.
  destruct (Validator.validate_post_input _ _ _) eqn:Hv; [|done].
  unfold Validator.validate_post_input in Hv; simpl in Hv.
  unfold as_new_test.
  destruct (in_data !! "id") as [[| |id| | | |]|]; try done.
  destruct (in_data !! "test_name") as [[| | | |name| |]|]; try done.
  destruct (in_data !! "test_result") as [[| |res| | | |]|]; try done.
  exists id, name, res. split_and!; [done..|].
  unfold mbind, io_mbind, io_bind. rewrite add_test_to_patient_eq. simpl.
  by destruct (db !! id).
Qed.

Lemma post_add_test_json_other (in_data : json) (db : database) :
  match in_data with
  | JDict _ => True
  | _ =>
      post_add_test_json in_data db =
      match py_contains "id" in_data with
      | Ret false => (Ret (Text "Key id is not found in input.", 400), db)
      | _ => (Raise TypeError, db)
      end
  end.
Proof.
  pose proof (validate_post_input_json_other in_data "id" Tint
                ["test_name"; "test_result"] [Tstr; Tint]) as Hv.
  destruct in_data as [| | | |str|l|d]; try done;
    unfold post_add_test_json; unfold mbind, io_mbind, io_bind, io_lift;
    rewrite Hv; by repeat case_match.
Qed.

(** X9. The outcomes of the [/add_test] route, with the store's load and
    save as modelled. An object failing [validate_post_input] gets 400 with
    that message and the store is untouched; a well-shaped object for an
    unknown patient gets 400 with [Patient not found] and the store is
    untouched; a well-shaped object for a stored patient gets 200 with
    [Test added], and the patient's document is replaced by the patient
    with the test appended. A body that is not an object leaves the store
    untouched: it gets 400 with the missing-key message for [id] when it is
    a list without the element [id] or a string without that substring,
    and makes the route raise [TypeError] otherwise. *)
Theorem post_add_test_outcomes (in_data : json) (db : database) :
  match in_data with
  | JDict d =>
      match Validator.validate_post_input d
              ["id"; "test_name"; "test_result"] [Tint; Tstr; Tint] with
      | CheckMsg msg =>
          post_add_test_json in_data db = (Ret (Text msg, 400), db)
      | CheckTrue =>
          ∃ id test_name test_result,
            d !! "id" = Some (JInt id) ∧
            d !! "test_name" = Some (JStr test_name) ∧
            d !! "test_result" = Some (JInt test_result) ∧
            post_add_test_json in_data db =
            match db !! id with
            | None => (Ret (Text "Patient not found", 400), db)
            | Some p =>
                (Ret (Text "Test added", 200),
                 <[mrn p := add_test_result p test_name test_result]> db)
            end
      end
  | _ =>
      post_add_test_json in_data db =
      match py_contains "id" in_data with
      | Ret false => (Ret (Text "Key id is not found in input.", 400), db)
      | _ => (Raise TypeError, db)
      end
  end.
Proof.
  pose proof (post_add_test_json_other in_data db) as Hother.
  destruct in_data as [| | | |str|l|d]; try exact Hother.
  apply post_add_test_cases.
Qed.


Lemma get_get_results_with_cases {S : Type} (int_ : S → result Z)
    (patient_id : S) (db : database) :
  (∀ e, int_ patient_id = Raise e → e = ValueError) →
  get_get_results_with int_ patient_id db =
  match int_ patient_id with
  | Raise _ => (Ret (Text "Given patient id is not an integer", 400), db)
  | Ret mrn =>
      match db !! mrn with
      | None => (Ret (Text ("Patient id of " +:+ pretty mrn +:+
                            " not found in database."), 400), db)
      | Some p => (Ret (TestResults (tests p), 200), db)
      end
  end.
Proof.
  intros Hraise. unfold get_get_results_with, validate_patient_id_with.
  destruct (int_ patient_id) as [z|e] eqn:Hs.
  - unfold mbind at 1, io_mbind, io_bind, io_lift.
    unfold mbind at 1, io_mbind, io_bind. rewrite get_patient_eq.
    by destruct (db !! z).
  - by rewrite (Hraise e).
Qed.

(** X10. The outcomes of the [/get_results] route, for every interpreter
    and every path segment, with the store's load as modelled: the store
    is returned as it was; a segment that is not an integer literal within
    the interpreter's limit on digits gets 400 with [Given patient id is
    not an integer]; a literal of an integer under which nothing is stored
    gets 400 with the not-found message naming that integer; and a literal
    of a stored patient's number gets 200 with that patient's tests. *)
Theorem get_get_results_outcomes
    (py : interpreter) (patient_id : list N) (db : database) :
  (get_get_results_with (cpython_int py) patient_id db).2 = db ∧
  (((¬ ∃ z, accepted_literal py patient_id z) ∧
    (get_get_results_with (cpython_int py) patient_id db).1
    = Ret (Text "Given patient id is not an integer", 400)) ∨
   (∃ z, accepted_literal py patient_id z ∧
         (get_get_results_with (cpython_int py) patient_id db).1 =
         match db !! z with
         | None => Ret (Text ("Patient id of " +:+ pretty z +:+
                              " not found in database."), 400)
         | Some p => Ret (TestResults (tests p), 200)
         end)).
Proof.
  rewrite get_get_results_with_cases by apply cpython_int_raises.
  destruct (cpython_int py patient_id) as [z|e] eqn:Hs.
  - split; [by destruct (db !! z)|]. right. exists z.
    split; [by apply cpython_int_spec|]. by destruct (db !! z).
  - split; [done|]. left. split; [|done].
    intros [z Hz%cpython_int_spec]. congruence.
Qed.

(** ** What the routes keep of the store *)





(** X12. Test results added to two different patients do not interfere:
    on a store that keeps every document under its own record number, the
    two [add_test_to_patient] calls give the same store in either order. *)
Theorem add_test_to_patient_commutes (t1 t2 : new_test) (db : database) :
  keyed_by_mrn db → nt_id t1 ≠ nt_id t2 →
  (add_test_to_patient t2 (add_test_to_patient t1 db).2).2
  = (add_test_to_patient t1 (add_test_to_patient t2 db).2).2.
Proof.
  intros Hkey Hne.
  rewrite (add_test_to_patient_eq t1 db), (add_test_to_patient_eq t2 db).
  destruct (db !! nt_id t1) as [p1|] eqn:H1;
    destruct (db !! nt_id t2) as [p2|] eqn:H2; simpl;
    rewrite !add_test_to_patient_eq;
    try rewrite (Hkey _ _ H1); try rewrite (Hkey _ _ H2);
    rewrite ?lookup_insert_ne by done; rewrite ?H1, ?H2; simpl;
    try rewrite (Hkey _ _ H1); try rewrite (Hkey _ _ H2); try done.
  by apply insert_insert_ne.
Qed.

Lemma add_test_to_patient_commutes_witness :
  let db : database :=
    {[ 1 := Patient_init "Ann" "Ables" 1 None None;
       2 := Patient_init "Bob" "Boyles" 2 None None ]} in
  let t1 := mkNewTest 1 "glucose" 90 in
  let t2 := mkNewTest 2 "cholesterol" 180 in
  keyed_by_mrn db ∧ nt_id t1 ≠ nt_id t2 ∧
  (add_test_to_patient t2 (add_test_to_patient t1 db).2).2
  = (add_test_to_patient t1 (add_test_to_patient t2 db).2).2.
Proof.
  intros db t1 t2.
  assert (keyed_by_mrn db) as Hkey.
  { apply (bool_decide_unpack _). vm_compute. reflexivity. }
  assert (nt_id t1 ≠ nt_id t2) as Hne by (simpl; lia).
  split_and!; [done..|].
  exact (add_test_to_patient_commutes t1 t2 db Hkey Hne).
Defined.
